(** * Joshua Project geographic enrichment: a Rocq model of the enrichment core

    The development follows [enrich_with_coordinates.py] (index construction,
    the two enrichment passes, the metadata counts) and the per-record
    denormaliser of [create_enriched_datasets.py].

    Conventions of the embedding.
    - A JSON scalar as [json.load] returns it is a [scalar]; a float is an IEEE
      binary64 number in the representation of [SpecFloat].
    - A [str] is a [string] holding one character per code point; code points
      above U+00FF are outside the model.
    - A record (a Python [dict] with field names as keys) is a finite map
      [gmap string scalar].
    - A raised exception is the left summand of [result]. *)

From Stdlib Require Import ZArith QArith Qround String Ascii List Bool Lia.
From Stdlib Require Import DecimalString SpecFloat Sorting.Sorted Permutation.
From stdpp Require Import base option list gmap strings.

Local Open Scope string_scope.
Local Open Scope list_scope.
Local Open Scope Z_scope.

(** ** Python values *)

Module Py.

(** What [json.load] yields for a JSON scalar. *)
Inductive scalar :=
| PyNone
| PyBool (b : bool)
| PyInt (z : Z)
| PyFloat (f : spec_float)
| PyStr (s : string).

(** The exceptions the modelled code can raise. *)
Inductive exn :=
| ZeroDivisionError
| KeyError (k : string)
| IndexError
| TypeError.

(** A computation that returns ([inr]) or raises ([inl]). *)
Definition result (A : Type) : Type := exn + A.

Definition ret {A} (a : A) : result A := inr a.
Definition raise {A} (e : exn) : result A := inl e.
Definition bind {A B} (m : result A) (k : A -> result B) : result B :=
  match m with
  | inl e => inl e
  | inr a => k a
  end.

(** [for x in l: st = body st x], stopping at the first exception. *)
Fixpoint for_each {A S} (body : S -> A -> result S) (l : list A) (st : S) : result S :=
  match l with
  | [] => ret st
  | x :: l' => bind (body st x) (for_each body l')
  end.

(** Truth value of a scalar in a condition ([if v:]). *)
Definition truthy (v : scalar) : bool :=
  match v with
  | PyNone => false
  | PyBool b => b
  | PyInt z => negb (z =? 0)
  | PyFloat (S754_zero _) => false
  | PyFloat _ => true
  | PyStr EmptyString => false
  | PyStr _ => true
  end.

(** [pd.isna] on a scalar: [None] and the float NaN are missing, every other
    scalar (strings included) is not. *)
Definition isna (v : scalar) : bool :=
  match v with
  | PyNone => true
  | PyFloat S754_nan => true
  | _ => false
  end.

(** The binary64 parameters. *)
Definition prec : Z := 53.
Definition emax : Z := 1024.

(** The exact value [m * 2^e] as a rational. *)
Definition dyadic (m e : Z) : Q :=
  match e with
  | Zneg p => Qmake m (Pos.pow 2 p)
  | _ => inject_Z (m * 2 ^ e)
  end.

(** The classes of dictionary keys: two scalars are the same key when Python
    finds one under the other, that is when they are equal and hash alike.
    Booleans, integers and floats compare by numeric value ([True == 1 == 1.0]).
    [json] decodes every NaN to one shared object, which a dictionary finds by
    identity, so NaN is a key equal to itself. *)
Inductive key :=
| KNone
| KStr (s : string)
| KNum (q : Q)
| KInf (neg : bool)
| KNaN.

Definition key_of (v : scalar) : key :=
  match v with
  | PyNone => KNone
  | PyBool b => KNum (inject_Z (if b then 1 else 0))
  | PyInt z => KNum (inject_Z z)
  | PyFloat (S754_zero _) => KNum 0
  | PyFloat (S754_infinity s) => KInf s
  | PyFloat S754_nan => KNaN
  | PyFloat (S754_finite s m e) => KNum (dyadic (cond_Zopp s (Zpos m)) e)
  | PyStr s => KStr s
  end.

Definition key_same (k1 k2 : key) : bool :=
  match k1, k2 with
  | KNone, KNone => true
  | KStr s1, KStr s2 => String.eqb s1 s2
  | KNum q1, KNum q2 => Qeq_bool q1 q2
  | KInf s1, KInf s2 => Bool.eqb s1 s2
  | KNaN, KNaN => true
  | _, _ => false
  end.

Definition key_eqb (v w : scalar) : bool := key_same (key_of v) (key_of w).

(** *** Strings *)

(** [str.isspace] on the code points below U+0100. *)
Definition is_space (a : ascii) : bool :=
  let n := N_of_ascii a in
  ((9 <=? n) && (n <=? 13) || (28 <=? n) && (n <=? 32) || (n =? 133) || (n =? 160))%N.

Fixpoint lstrip (s : string) : string :=
  match s with
  | EmptyString => EmptyString
  | String a s' => if is_space a then lstrip s' else s
  end.

Fixpoint rstrip (s : string) : string :=
  match s with
  | EmptyString => EmptyString
  | String a s' =>
      match rstrip s' with
      | EmptyString => if is_space a then EmptyString else String a EmptyString
      | r => String a r
      end
  end.

(** [s.strip()] *)
Definition strip (s : string) : string := rstrip (lstrip s).

(** [s.split(sep)] for a one-character separator: never an empty list. *)
Fixpoint split (sep : ascii) (s : string) : list string :=
  match s with
  | EmptyString => [EmptyString]
  | String a s' =>
      if Ascii.eqb a sep then EmptyString :: split sep s'
      else match split sep s' with
           | h :: t => String a h :: t
           | [] => [String a EmptyString]
           end
  end.

Definition nonempty (s : string) : bool :=
  match s with EmptyString => false | _ => true end.

(** *** Numbers as text *)

(** [str(z)] for an integer. *)
Definition str_of_Z (z : Z) : string := NilZero.string_of_int (Z.to_int z).

Definition pow10 (d : Z) : Q :=
  match d with
  | Zneg p => Qmake 1 (Pos.pow 10 p)
  | _ => inject_Z (10 ^ d)
  end.

(** The float nearest to an integer, and the quotient of two integers as
    [a / b] computes it (exact for operands below 2^53 in magnitude). *)
Definition float_of_Z (z : Z) : spec_float := binary_normalize prec emax z 0 false.

Definition true_div (a b : Z) : result spec_float :=
  if b =? 0 then raise ZeroDivisionError
  else ret (SFdiv prec emax (float_of_Z a) (float_of_Z b)).

(** Round to the nearest integer, ties to even. *)
Definition round_half_even (q : Q) : Z :=
  let fl := Qfloor q in
  match Qcompare (q - inject_Z fl)%Q (1 # 2)%Q with
  | Lt => fl
  | Gt => fl + 1
  | Eq => if Z.even fl then fl else fl + 1
  end.

(** [f"{x:.1f}"]: the exact value of the float rounded to one decimal. *)
Definition format_1f (x : spec_float) : string :=
  let fixed (neg : bool) (q : Q) :=
    let t := round_half_even (q * inject_Z 10)%Q in
    (if neg then "-" else "") +:+ str_of_Z (t / 10) +:+ "." +:+ str_of_Z (t mod 10) in
  match x with
  | S754_zero s => fixed s 0%Q
  | S754_infinity s => if s then "-inf" else "inf"
  | S754_nan => "nan"
  | S754_finite s m e => fixed s (dyadic (Zpos m) e)
  end.

(** [repr] of a float is the shortest decimal that reads back as the same
    float.  [shortest_decimal v lo hi closed n] looks for it among the decimals
    of at most [n] more digits, the candidates being the two [k]-digit
    neighbours of [v]; [lo] and [hi] bound the reals that round to [v]. *)
Definition decimal_exponent (v : Q) : Z :=
  (fix go (fuel : nat) (d : Z) : Z :=
     match fuel with
     | O => d
     | S fuel' => if Qle_bool (pow10 d) v then go fuel' (d + 1) else d
     end) 640%nat (-324).

Definition rounds_back (lo hi : Q) (closed : bool) (c : Q) : bool :=
  if closed then Qle_bool lo c && Qle_bool c hi
  else negb (Qle_bool c lo) && negb (Qle_bool hi c).

Fixpoint shortest_decimal (v lo hi : Q) (closed : bool) (decpt : Z) (k : Z) (fuel : nat)
  : Z * Z :=
  let p := decpt - k in
  let d := Qfloor (v / pow10 p)%Q in
  let c1 := (inject_Z d * pow10 p)%Q in
  let c2 := (inject_Z (d + 1) * pow10 p)%Q in
  let ok1 := rounds_back lo hi closed c1 in
  let ok2 := rounds_back lo hi closed c2 in
  let nearer1 :=
    match Qcompare (v - c1)%Q (c2 - v)%Q with
    | Lt => true
    | Gt => false
    | Eq => Z.even d
    end in
  match fuel with
  | O => (d, p)
  | S fuel' =>
      if ok1 && (negb ok2 || nearer1) then (d, p)
      else if ok2 then (d + 1, p)
      else shortest_decimal v lo hi closed decpt (k + 1) fuel'
  end.

Fixpoint drop_zeros (fuel : nat) (d p : Z) : Z * Z :=
  match fuel with
  | O => (d, p)
  | S fuel' => if (d mod 10 =? 0) && negb (d =? 0) then drop_zeros fuel' (d / 10) (p + 1) else (d, p)
  end.

Fixpoint zeros (n : nat) : string :=
  match n with O => "" | S n' => String "0" (zeros n') end.

(** The digits [ds] with the decimal point after [decpt] of them, laid out as
    [repr] does: plain notation for [-4 < decpt <= 16], else an exponent of at
    least two digits. *)
Definition layout (ds : string) (decpt : Z) : string :=
  let nd := Z.of_nat (String.length ds) in
  if (-4 <? decpt) && (decpt <=? 16) then
    if decpt <=? 0 then "0." +:+ zeros (Z.to_nat (- decpt)) +:+ ds
    else if nd <=? decpt then ds +:+ zeros (Z.to_nat (decpt - nd)) +:+ ".0"
    else substring 0 (Z.to_nat decpt) ds +:+ "." +:+
         substring (Z.to_nat decpt) (Z.to_nat (nd - decpt)) ds
  else
    let ex := decpt - 1 in
    let mant :=
      match ds with
      | String a EmptyString => ds
      | String a rest => String a ("." +:+ rest)
      | EmptyString => ds
      end in
    let digits := str_of_Z (Z.abs ex) in
    mant +:+ "e" +:+ (if ex <? 0 then "-" else "+") +:+
    (if Z.abs ex <? 10 then "0" else "") +:+ digits.

Definition float_repr (x : spec_float) : string :=
  let finite (s : bool) (m : positive) (e : Z) :=
    let v := dyadic (Zpos m) e in
    let up := dyadic 1 (e - 1) in
    let down := if (Zpos m =? 2 ^ (prec - 1)) && (emin prec emax <? e)
                then dyadic 1 (e - 2) else up in
    let '(d, p) := shortest_decimal v (v - down)%Q (v + up)%Q (Z.even (Zpos m))
                     (decimal_exponent v) 1 17 in
    let '(d, p) := drop_zeros 400 d p in
    let ds := str_of_Z d in
    (if s then "-" else "") +:+ layout ds (p + Z.of_nat (String.length ds)) in
  match x with
  | S754_zero s => if s then "-0.0" else "0.0"
  | S754_infinity s => if s then "-inf" else "inf"
  | S754_nan => "nan"
  | S754_finite s m e =>
      match binary_normalize prec emax (cond_Zopp s (Zpos m)) e s with
      | S754_finite s' m' e' => finite s' m' e'
      | S754_zero s' => if s' then "-0.0" else "0.0"
      | S754_infinity s' => if s' then "-inf" else "inf"
      | S754_nan => "nan"
      end
  end.

(** [str(v)] *)
Definition py_str (v : scalar) : string :=
  match v with
  | PyNone => "None"
  | PyBool b => if b then "True" else "False"
  | PyInt z => str_of_Z z
  | PyFloat f => float_repr f
  | PyStr s => s
  end.

(** *** Ordering and [sorted] *)

Definition num_lt (k1 k2 : key) : option bool :=
  match k1, k2 with
  | KNum q1, KNum q2 => Some (negb (Qle_bool q2 q1))
  | KNum _, KInf neg => Some (negb neg)
  | KInf neg, KNum _ => Some neg
  | KInf n1, KInf n2 => Some (n1 && negb n2)
  | KNaN, (KNum _ | KInf _ | KNaN) => Some false
  | (KNum _ | KInf _), KNaN => Some false
  | _, _ => None
  end.

(** [v < w]: strings compare by code points, numbers by value, and any other
    pairing raises [TypeError]. *)
Definition py_lt (v w : scalar) : result bool :=
  match v, w with
  | PyStr a, PyStr b => ret (String.ltb a b)
  | _, _ =>
      match num_lt (key_of v) (key_of w) with
      | Some b => ret b
      | None => raise TypeError
      end
  end.

(** [sorted(l)], by insertion.  On a list that [<] orders totally (all
    strings, or all numbers without NaN) every sort returns the same list, and
    on a list mixing strings with numbers every sort raises [TypeError]; the
    order Python gives to numbers around a NaN is not modelled. *)
Fixpoint insert_sorted (x : scalar) (l : list scalar) : result (list scalar) :=
  match l with
  | [] => ret [x]
  | y :: l' =>
      bind (py_lt x y) (fun b =>
        if b then ret (x :: l)
        else bind (insert_sorted x l') (fun r => ret (y :: r)))
  end.

Fixpoint py_sorted (l : list scalar) : result (list scalar) :=
  match l with
  | [] => ret []
  | x :: l' => bind (py_sorted l') (insert_sorted x)
  end.

(** *** Dictionaries and sets keyed by scalars *)

(** A [dict] whose keys are scalars, in insertion order. *)
Definition dict (V : Type) : Type := list (scalar * V).

(** [d.get(k)] as an option; [k in d] is [is_Some] of it. *)
Fixpoint dict_get {V} (d : dict V) (k : scalar) : option V :=
  match d with
  | [] => None
  | (k0, v0) :: d' => if key_eqb k0 k then Some v0 else dict_get d' k
  end.

(** [d[k] = v]: an equal key keeps its place and takes the new value. *)
Fixpoint dict_set {V} (d : dict V) (k : scalar) (v : V) : dict V :=
  match d with
  | [] => [(k, v)]
  | (k0, v0) :: d' =>
      if key_eqb k0 k then (k0, v) :: d' else (k0, v0) :: dict_set d' k v
  end.

(** A [set] of scalars. *)
Definition pyset : Type := list scalar.

Definition set_mem (s : pyset) (v : scalar) : bool := existsb (fun w => key_eqb w v) s.

(** [s.add(v)] *)
Definition set_add (s : pyset) (v : scalar) : pyset :=
  if set_mem s v then s else s ++ [v].

(** *** Records *)

(** [r.get(k)], [r.get(k, d)] and [r[k]] on a record. *)
Definition get (r : gmap string scalar) (k : string) : scalar := default PyNone (r !! k).

Definition get_or (r : gmap string scalar) (k : string) (d : scalar) : scalar :=
  default d (r !! k).

Definition getitem (r : gmap string scalar) (k : string) : result scalar :=
  match r !! k with
  | Some v => ret v
  | None => raise (KeyError k)
  end.

(** [k in d] and [d[k]] for a dictionary with string keys asked with a scalar:
    only a string can be found. *)
Definition str_lookup {V} (d : gmap string V) (k : scalar) : option V :=
  match k with
  | PyStr s => d !! s
  | _ => None
  end.

End Py.

Import Py.

Abbreviation record := (gmap string scalar).
Notation "'let*' x ':=' m 'in' k" := (bind m (fun x => k))
  (at level 10, x pattern, m at level 100, k at level 200).

(** ** [enrich_with_coordinates.py] *)

Module EnrichWithCoordinates.

(** *** [build_lookup_tables] *)

(** The body of the loop over [centroids]: a country is filed under its
    [iso_a2] and under its [iso_a3], each when truthy. *)
Definition index_centroid (centroid_lookup : dict record) (country : record) : dict record :=
  let iso_a2 := get country "iso_a2" in
  let iso_a3 := get country "iso_a3" in
  let centroid_lookup :=
    if truthy iso_a2 then dict_set centroid_lookup iso_a2 country else centroid_lookup in
  if truthy iso_a3 then dict_set centroid_lookup iso_a3 country else centroid_lookup.

Definition build_centroid_lookup (centroids : list record) : dict record :=
  fold_left index_centroid centroids [].

(** [glottolog_lookup[code].append(lang)], the list being created on first use. *)
Definition append_entry (glottolog_lookup : gmap string (list record))
    (lang : record) (code : string) : gmap string (list record) :=
  <[code := default [] (glottolog_lookup !! code) ++ [lang]]> glottolog_lookup.

(** The body of the loop over [glottolog]. *)
Definition index_language (glottolog_lookup : gmap string (list record)) (lang : record)
  : gmap string (list record) :=
  let iso_codes := strip (py_str (get_or lang "isocodes" (PyStr ""))) in
  if nonempty iso_codes && negb (String.eqb iso_codes "nan") then
    fold_left
      (fun lookup code =>
         let code := strip code in
         if nonempty code then append_entry lookup lang code else lookup)
      (split "," iso_codes) glottolog_lookup
  else glottolog_lookup.

Definition build_glottolog_lookup (glottolog : list record) : gmap string (list record) :=
  fold_left index_language glottolog ∅.

(** A row of the languoid table as [pd.read_csv] types its columns: text, with
    an empty [family_id] cell read as missing. *)
Record languoid := {
  row_id : string;
  row_level : string;
  row_family_id : option string;
  row_name : string
}.

(** The body of the loop over [glottolog_languoid.iterrows()]; the state is
    [(family_lookup, glottocode_to_family)]. *)
Definition index_languoid (st : gmap string string * gmap string string) (row : languoid)
  : gmap string string * gmap string string :=
  let '(family_lookup, glottocode_to_family) := st in
  let family_lookup :=
    if String.eqb (row_level row) "family"
    then <[row_id row := row_name row]> family_lookup else family_lookup in
  let glottocode_to_family :=
    match row_family_id row with
    | Some fam => <[row_id row := fam]> glottocode_to_family
    | None => glottocode_to_family
    end in
  (family_lookup, glottocode_to_family).

Definition build_family_lookups (glottolog_languoid : list languoid)
  : gmap string string * gmap string string :=
  fold_left index_languoid glottolog_languoid (∅, ∅).

Definition build_lookup_tables (centroids glottolog : list record)
    (glottolog_languoid : list languoid) :=
  let '(family_lookup, glottocode_to_family) := build_family_lookups glottolog_languoid in
  (build_centroid_lookup centroids, build_glottolog_lookup glottolog,
   family_lookup, glottocode_to_family).

(** *** The enrichment passes *)

(** The accumulators of an enrichment loop. *)
Record loop_state := {
  enriched : list record;
  matched : nat;
  unmatched : pyset
}.

Definition initial : loop_state := {| enriched := []; matched := 0; unmatched := [] |}.

(** What the pass prints once the loop is over: the matched and total counts,
    the match rate to one decimal, and, when some code was unmatched, their
    number with the first ten in sorted order. *)
Record report := {
  rep_matched : nat;
  rep_total : nat;
  rep_rate : string;
  rep_unmatched : option (nat * list scalar)
}.

Definition percentage (part total : nat) : result string :=
  let* rate := true_div (100 * Z.of_nat part) (Z.of_nat total) in
  ret (format_1f rate +:+ "%").

Definition summarize (total : nat) (st : loop_state) : result (list record * report) :=
  let* rate := percentage (matched st) total in
  let* sample :=
    match unmatched st with
    | [] => ret None
    | codes => let* l := py_sorted codes in ret (Some (length codes, take 10 l))
    end in
  ret (enriched st,
       {| rep_matched := matched st; rep_total := total;
          rep_rate := rate; rep_unmatched := sample |}).

(** The body of the loop of [enrich_people_groups]. *)
Definition enrich_people_groups_step (centroid_lookup : dict record)
    (st : loop_state) (pg : record) : result loop_state :=
  let pg_enriched := pg in
  let country_code := get_or pg "ROG3" (PyStr "") in
  match dict_get centroid_lookup country_code with
  | Some centroid =>
      let* latitude := getitem centroid "latitude" in
      let pg_enriched := <["country_latitude" := latitude]> pg_enriched in
      let* longitude := getitem centroid "longitude" in
      let pg_enriched := <["country_longitude" := longitude]> pg_enriched in
      let pg_enriched := <["continent" := get_or centroid "continent" (PyStr "")]> pg_enriched in
      let pg_enriched := <["region_un" := get_or centroid "region_un" (PyStr "")]> pg_enriched in
      let pg_enriched :=
        <["coordinate_source" := PyStr "Natural Earth (country centroid)"]> pg_enriched in
      ret {| enriched := enriched st ++ [pg_enriched];
             matched := S (matched st);
             unmatched := unmatched st |}
  | None =>
      let pg_enriched := <["country_latitude" := PyNone]> pg_enriched in
      let pg_enriched := <["country_longitude" := PyNone]> pg_enriched in
      let pg_enriched := <["continent" := PyNone]> pg_enriched in
      let pg_enriched := <["region_un" := PyNone]> pg_enriched in
      let pg_enriched := <["coordinate_source" := PyNone]> pg_enriched in
      ret {| enriched := enriched st ++ [pg_enriched];
             matched := matched st;
             unmatched := if truthy country_code
                          then set_add (unmatched st) country_code else unmatched st |}
  end.

Definition enrich_people_groups (people_groups : list record) (centroid_lookup : dict record)
  : result (list record * report) :=
  let* st := for_each (enrich_people_groups_step centroid_lookup) people_groups initial in
  summarize (length people_groups) st.

(** The family lookup inside the hit branch of [enrich_languages]: the values
    stored under [family_name] and [family_id]. *)
Definition resolve_family (family_lookup glottocode_to_family : gmap string string)
    (glottocode : scalar) : scalar * scalar :=
  match (if truthy glottocode then str_lookup glottocode_to_family glottocode else None) with
  | Some family_id =>
      let family_name := default "" (family_lookup !! family_id) in
      (PyStr family_name, PyStr family_id)
  | None =>
      match (if truthy glottocode then str_lookup family_lookup glottocode else None) with
      | Some own_name => (PyStr own_name, glottocode)
      | None => (if truthy glottocode then PyStr "Isolate" else PyStr "", PyStr "")
      end
  end.

(** [None if pd.isna(v) else v] *)
Definition nan_to_none (v : scalar) : scalar := if isna v then PyNone else v.

(** The body of the loop of [enrich_languages]. *)
Definition enrich_languages_step (glottolog_lookup : gmap string (list record))
    (family_lookup glottocode_to_family : gmap string string)
    (st : loop_state) (lang : record) : result loop_state :=
  let lang_enriched := lang in
  let iso_code := get_or lang "ROL3" (PyStr "") in
  match (if truthy iso_code then str_lookup glottolog_lookup iso_code else None) with
  | Some glotto_entries =>
      let* glotto :=
        match glotto_entries with
        | g :: _ => ret g
        | [] => raise IndexError
        end in
      let lat := get glotto "latitude" in
      let lng := get glotto "longitude" in
      let lang_enriched := <["latitude" := nan_to_none lat]> lang_enriched in
      let lang_enriched := <["longitude" := nan_to_none lng]> lang_enriched in
      let glottocode := get_or glotto "glottocode" (PyStr "") in
      let lang_enriched := <["glottocode" := glottocode]> lang_enriched in
      let '(family_name, family_id) :=
        resolve_family family_lookup glottocode_to_family glottocode in
      let lang_enriched := <["family_name" := family_name]> lang_enriched in
      let lang_enriched := <["family_id" := family_id]> lang_enriched in
      let lang_enriched := <["macroarea" := get_or glotto "macroarea" (PyStr "")]> lang_enriched in
      let lang_enriched := <["coordinate_source" := PyStr "Glottolog"]> lang_enriched in
      let lang_enriched :=
        <["glottolog_match_count" := PyInt (Z.of_nat (length glotto_entries))]> lang_enriched in
      ret {| enriched := enriched st ++ [lang_enriched];
             matched := S (matched st);
             unmatched := unmatched st |}
  | None =>
      let lang_enriched := <["latitude" := PyNone]> lang_enriched in
      let lang_enriched := <["longitude" := PyNone]> lang_enriched in
      let lang_enriched := <["glottocode" := PyNone]> lang_enriched in
      let lang_enriched := <["family_name" := PyNone]> lang_enriched in
      let lang_enriched := <["family_id" := PyNone]> lang_enriched in
      let lang_enriched := <["macroarea" := PyNone]> lang_enriched in
      let lang_enriched := <["coordinate_source" := PyNone]> lang_enriched in
      let lang_enriched := <["glottolog_match_count" := PyInt 0]> lang_enriched in
      ret {| enriched := enriched st ++ [lang_enriched];
             matched := matched st;
             unmatched := if truthy iso_code
                          then set_add (unmatched st) iso_code else unmatched st |}
  end.

Definition enrich_languages (languages : list record)
    (glottolog_lookup : gmap string (list record))
    (family_lookup glottocode_to_family : gmap string string)
  : result (list record * report) :=
  let* st := for_each
               (enrich_languages_step glottolog_lookup family_lookup glottocode_to_family)
               languages initial in
  summarize (length languages) st.

(** *** [save_enriched_data]: the metadata it computes and returns *)

Definition new_fields_people_groups : list string :=
  ["country_latitude"; "country_longitude"; "continent"; "region_un"; "coordinate_source"].

Definition new_fields_languages : list string :=
  ["latitude"; "longitude"; "glottocode"; "family_name"; "family_id"; "macroarea";
   "coordinate_source"; "glottolog_match_count"].

(** [sum(1 for r in records if r.get(field))] *)
Definition count_with (field : string) (records : list record) : nat :=
  length (List.filter (fun r => truthy (get r field)) records).

Record coverage := {
  cov_total : nat;
  cov_with_coordinates : nat;
  cov_coverage : string
}.

Record metadata := {
  md_people_groups : coverage;
  md_languages : coverage;
  md_new_fields_people_groups : list string;
  md_new_fields_languages : list string
}.

Definition cover (field : string) (records : list record) : result coverage :=
  let with_coords := count_with field records in
  let* pct := percentage with_coords (length records) in
  ret {| cov_total := length records; cov_with_coordinates := with_coords;
         cov_coverage := pct |}.

Definition save_enriched_data (people_groups_enriched languages_enriched : list record)
  : result metadata :=
  let* pg := cover "country_latitude" people_groups_enriched in
  let* lang := cover "latitude" languages_enriched in
  ret {| md_people_groups := pg; md_languages := lang;
         md_new_fields_people_groups := new_fields_people_groups;
         md_new_fields_languages := new_fields_languages |}.

End EnrichWithCoordinates.

(** ** [create_enriched_datasets.py] *)

Module CreateEnrichedDatasets.

(** A field of a denormalised record: a scalar of the people group, or a group
    of fields taken from a matched country or language. *)
Inductive value :=
| Flat (v : scalar)
| Nested (g : record).

Record lookups := {
  countries : dict record;
  languages : dict record
}.

(** [{c[field]: c for c in records}] *)
Definition index_by (field : string) (records : list record) : result (dict record) :=
  for_each (fun d c => let* k := getitem c field in ret (dict_set d k c)) records [].

(** [create_lookups], without the totals table that [enrich_people_group]
    never reads. *)
Definition create_lookups (countries languages : list record) : result lookups :=
  let* countries_lookup := index_by "ROG3" countries in
  let* languages_lookup := index_by "ROL3" languages in
  ret {| countries := countries_lookup; languages := languages_lookup |}.

(** [{name: source.get(field), ...}] *)
Definition pick (source : record) (fields : list (string * string)) : record :=
  fold_left (fun g '(name, field) => <[name := get source field]> g) fields ∅.

Definition country_fields : list (string * string) :=
  [("name", "Ctry"); ("continent", "Continent"); ("region", "RegionName");
   ("percent_christianity", "PercentChristianity");
   ("percent_evangelical", "PercentEvangelical");
   ("total_peoples", "CntPeoples"); ("unreached_peoples", "CntPeoplesLR");
   ("jp_scale", "JPScaleCtry")].

Definition language_fields : list (string * string) :=
  [("name", "Language"); ("hub_country", "HubCountry"); ("bible_status", "BibleStatus");
   ("bible_year", "BibleYear"); ("nt_year", "NTYear"); ("portions_year", "PortionsYear");
   ("has_jesus_film", "HasJesusFilm"); ("has_audio_recordings", "AudioRecordings");
   ("status", "Status"); ("latitude", "latitude"); ("longitude", "longitude");
   ("glottocode", "glottocode"); ("family_name", "family_name");
   ("family_id", "family_id"); ("macroarea", "macroarea")].

Definition enrich_people_group (people_group : record) (lk : lookups) : gmap string value :=
  let enriched : gmap string value := Flat <$> people_group in
  let country_code := get people_group "ROG3" in
  let enriched :=
    match (if truthy country_code then dict_get (countries lk) country_code else None) with
    | Some country => <["country_data" := Nested (pick country country_fields)]> enriched
    | None => enriched
    end in
  let language_code := get people_group "ROL3" in
  match (if truthy language_code then dict_get (languages lk) language_code else None) with
  | Some language => <["language_data" := Nested (pick language language_fields)]> enriched
  | None => enriched
  end.

(** [create_full_enriched] *)
Definition create_full_enriched (people_groups : list record) (lk : lookups)
  : list (gmap string value) :=
  map (fun pg => enrich_people_group pg lk) people_groups.

End CreateEnrichedDatasets.

(** ** Vocabulary of the statements *)

Module Spec.
Import EnrichWithCoordinates.

(** The country is filed under the key [k] by [build_lookup_tables]. *)
Definition files_under (country : record) (k : scalar) : bool :=
  truthy (get country "iso_a2") && key_eqb (get country "iso_a2") k
  || truthy (get country "iso_a3") && key_eqb (get country "iso_a3") k.

(** The keys a dialect record is indexed under, in the words of the
    specification: none when the code field is absent, empty once trimmed, or
    the text [nan]; else the trimmed, non-empty parts of the comma list. *)
Definition claimed_keys (lang : record) : list string :=
  match lang !! "isocodes" with
  | None => []
  | Some raw =>
      let text := strip (py_str raw) in
      if decide (text = "" ∨ text = "nan") then []
      else List.filter nonempty (map strip (split "," text))
  end.

(** The list the specification files under [code]: every record once per
    occurrence of [code] among its keys, in the order of the collection. *)
Definition claimed_entries (code : string) (glottolog : list record) : list record :=
  flat_map (fun lang => repeat lang (count_occ string_dec (claimed_keys lang) code)) glottolog.

(** A list of an index after more records were appended to it: untouched when
    there are none, created on the first. *)
Definition extend (o : option (list record)) (l : list record) : option (list record) :=
  match l with
  | [] => o
  | _ => Some (default [] o ++ l)
  end.

(** The code a pass looks a record up by. *)
Definition country_code (pg : record) : scalar := get_or pg "ROG3" (PyStr "").
Definition iso_code (lang : record) : scalar := get_or lang "ROL3" (PyStr "").

(** The reference entry a record finds, if any. *)
Definition country_of (centroid_lookup : dict record) (pg : record) : option record :=
  dict_get centroid_lookup (country_code pg).

Definition dialects_of (glottolog_lookup : gmap string (list record)) (lang : record)
  : option (list record) :=
  if truthy (iso_code lang) then str_lookup glottolog_lookup (iso_code lang) else None.

Definition found {A} (o : option A) : bool :=
  match o with Some _ => true | None => false end.

(** [if code: unmatched.add(code)] *)
Definition note_unmatched (codes : pyset) (c : scalar) : pyset :=
  if truthy c then set_add codes c else codes.

(** The set of unmatched codes after the records [xs], from the set [init]. *)
Definition unmatched_codes (hit : record -> bool) (code : record -> scalar)
    (xs : list record) (init : pyset) : pyset :=
  fold_left (fun codes x => if hit x then codes else note_unmatched codes (code x)) xs init.

(** One turn of a pass on the record [x] raises nothing, appends a record [r]
    that [post] relates to [x], counts a hit, and notes the code of a miss. *)
Definition step_ok (step : loop_state -> record -> result loop_state)
    (hit : record -> bool) (code : record -> scalar)
    (post : record -> record -> Prop) (x : record) : Prop :=
  forall st, exists r,
    step st x
    = inr {| enriched := enriched st ++ [r];
             matched := if hit x then S (matched st) else matched st;
             unmatched := if hit x then unmatched st
                          else note_unmatched (unmatched st) (code x) |}
    /\ post x r.

(** The enriched record [r] has the fields of [x] outside [names]. *)
Definition keeps_outside (names : list string) (x r : record) : Prop :=
  forall k, k ∉ names -> r !! k = x !! k.

(** The record the people-group pass makes of [pg]. *)
Definition people_group_post (centroid_lookup : dict record) (pg r : record) : Prop :=
  keeps_outside new_fields_people_groups pg r
  /\ match country_of centroid_lookup pg with
     | Some centroid =>
         r !! "country_latitude" = centroid !! "latitude"
         /\ r !! "country_longitude" = centroid !! "longitude"
         /\ r !! "continent" = Some (get_or centroid "continent" (PyStr ""))
         /\ r !! "region_un" = Some (get_or centroid "region_un" (PyStr ""))
         /\ r !! "coordinate_source" = Some (PyStr "Natural Earth (country centroid)")
     | None => forall f, f ∈ new_fields_people_groups -> r !! f = Some PyNone
     end.

(** The record the language pass makes of [lang]: its own fields outside the
    added names. *)
Definition language_post (lang r : record) : Prop :=
  keeps_outside new_fields_languages lang r.

(** The enriched collection [rs] has the length and the order of [xs], each
    record with the fields of its input outside [names]. *)
Definition frame_of (names : list string) (xs rs : list record) : Prop :=
  length rs = length xs
  /\ forall i x, xs !! i = Some x -> exists r, rs !! i = Some r /\ keeps_outside names x r.

(** A centroid has the two fields the pass reads by subscript. *)
Definition centroid_complete (centroid : record) : Prop :=
  is_Some (centroid !! "latitude") /\ is_Some (centroid !! "longitude").

(** The code of the record is text. *)
Definition is_text (v : scalar) : Prop := exists s, v = PyStr s.

(** Ascending order of two scalars that are strings. *)
Definition text_le (v w : scalar) : Prop :=
  match v, w with
  | PyStr a, PyStr b => String.ltb b a = false
  | _, _ => False
  end.

(** The latitude a people group is given counts as coordinates. *)
Definition has_coordinates (centroid_lookup : dict record) (pg : record) : bool :=
  match country_of centroid_lookup pg with
  | Some centroid => truthy (get centroid "latitude")
  | None => false
  end.

End Spec.

(** ** Facts about the Python layer *)

Section PyFacts.

Lemma key_same_refl k : key_same k k = true.
Proof.
  destruct k as [|s|q|b|]; simpl; auto.
  - apply String.eqb_refl.
  - apply Qeq_bool_refl.
  - by destruct b.
Qed.

Lemma key_same_sym k1 k2 : key_same k1 k2 = key_same k2 k1.
Proof.
  destruct k1 as [|s1|q1|b1|], k2 as [|s2|q2|b2|]; simpl; auto.
  - apply String.eqb_sym.
  - apply Qeq_bool_comm.
  - by destruct b1, b2.
Qed.

Lemma key_same_trans k1 k2 k3 :
  key_same k1 k2 = true -> key_same k2 k3 = true -> key_same k1 k3 = true.
Proof.
  destruct k1 as [|s1|q1|b1|], k2 as [|s2|q2|b2|], k3 as [|s3|q3|b3|];
    simpl; try congruence.
  - rewrite !String.eqb_eq. congruence.
  - apply Qeq_bool_trans.
  - destruct b1, b2, b3; simpl; congruence.
Qed.

Lemma key_eqb_refl v : key_eqb v v = true.
Proof. apply key_same_refl. Qed.

(** Two keys that Python identifies are found under the same entries. *)
Lemma key_eqb_transfer k0 k k' : key_eqb k0 k = true -> key_eqb k0 k' = key_eqb k k'.
Proof.
  unfold key_eqb. intros H.
  destruct (key_same (key_of k) (key_of k')) eqn:E.
  - eapply key_same_trans; eauto.
  - destruct (key_same (key_of k0) (key_of k')) eqn:E'; [|done].
    rewrite <- E. symmetry. eapply key_same_trans; [|exact E'].
    by rewrite key_same_sym.
Qed.

Lemma key_eqb_str s1 s2 : key_eqb (PyStr s1) (PyStr s2) = true <-> s1 = s2.
Proof. unfold key_eqb. simpl. apply String.eqb_eq. Qed.

Lemma dict_get_set {V} (d : dict V) k v k' :
  dict_get (dict_set d k v) k' = if key_eqb k k' then Some v else dict_get d k'.
Proof.
  induction d as [|[k0 v0] d IH]; simpl; [done|].
  destruct (key_eqb k0 k) eqn:E; simpl.
  - rewrite (key_eqb_transfer _ _ k' E). by destruct (key_eqb k k').
  - rewrite IH. destruct (key_eqb k0 k') eqn:E'; [|done].
    destruct (key_eqb k k') eqn:E''; [|done].
    exfalso. clear IH. unfold key_eqb in *.
    assert (key_same (key_of k0) (key_of k) = true); [|congruence].
    eapply key_same_trans; [exact E'|]. by rewrite key_same_sym.
Qed.

End PyFacts.

(** ** The lookup indices *)

Section Indices.
Import EnrichWithCoordinates Spec.

Lemma index_centroid_get d country k :
  dict_get (index_centroid d country) k
  = if files_under country k then Some country else dict_get d k.
Proof.
  unfold index_centroid, files_under.
  destruct (truthy (get country "iso_a2")), (truthy (get country "iso_a3"));
    simpl; rewrite ?dict_get_set;
    destruct (key_eqb (get country "iso_a2") k), (key_eqb (get country "iso_a3") k); done.
Qed.

Lemma fold_centroid_skip after d k :
  Forall (fun c => files_under c k = false) after ->
  dict_get (fold_left index_centroid after d) k = dict_get d k.
Proof.
  intros H. revert d. induction H as [|c after Hc _ IH]; intros d; simpl; [done|].
  by rewrite IH, index_centroid_get, Hc.
Qed.

Lemma fold_centroid_last before country after d k :
  files_under country k = true ->
  Forall (fun c => files_under c k = false) after ->
  dict_get (fold_left index_centroid (before ++ country :: after) d) k = Some country.
Proof.
  intros Hk Hafter. rewrite fold_left_app. simpl.
  by rewrite fold_centroid_skip, index_centroid_get, Hk.
Qed.

(** C4, single-valued index, last write wins: when a country is filed under a
    key and no later country of the collection is, the lookup of that key
    returns this country, whatever the earlier countries were filed under.  In
    particular the index of two countries of code US returns the second. *)
Theorem centroid_index_last_write_wins :
  (forall (before after : list record) (country : record) (k : scalar),
      files_under country k = true ->
      Forall (fun c => files_under c k = false) after ->
      dict_get (build_centroid_lookup (before ++ country :: after)) k = Some country)
  /\ (let first : record :=
        {[ "iso_a2" := PyStr "US"; "latitude" := PyInt 10; "longitude" := PyInt 20 ]} in
      let second : record :=
        {[ "iso_a2" := PyStr "US"; "latitude" := PyInt 99; "longitude" := PyInt 88 ]} in
      dict_get (build_centroid_lookup [first; second]) (PyStr "US") = Some second).
Proof.
  split.
  - intros. by apply fold_centroid_last.
  - intros first second.
    apply (fold_centroid_last [first] second [] []); [|constructor].
    by vm_compute.
Qed.

(** The statement at the two countries of the example. *)
Lemma centroid_index_last_write_wins_witness :
  let first : record :=
    {[ "iso_a2" := PyStr "US"; "latitude" := PyInt 10; "longitude" := PyInt 20 ]} in
  let second : record :=
    {[ "iso_a2" := PyStr "US"; "latitude" := PyInt 99; "longitude" := PyInt 88 ]} in
  dict_get (build_centroid_lookup ([first] ++ second :: [])) (PyStr "US") = Some second.
Proof.
  intros first second.
  apply (proj1 centroid_index_last_write_wins [first] [] second (PyStr "US")).
  - vm_compute. reflexivity.
  - constructor.
Defined.

Lemma extend_extend o l1 l2 : extend (extend o l1) l2 = extend o (l1 ++ l2).
Proof.
  destruct l1 as [|x l1]; [done|].
  destruct l2 as [|y l2]; simpl; [by rewrite app_nil_r|].
  by rewrite <- app_assoc.
Qed.

Lemma append_entry_lookup d lang code c :
  append_entry d lang code !! c
  = extend (d !! c) (if decide (code = c) then [lang] else []).
Proof.
  unfold append_entry. rewrite lookup_insert.
  by destruct (decide (code = c)) as [->|].
Qed.

Lemma index_parts_lookup lang parts d c :
  fold_left
    (fun lookup code =>
       let code := strip code in
       if nonempty code then append_entry lookup lang code else lookup) parts d !! c
  = extend (d !! c)
      (repeat lang (count_occ string_dec (List.filter nonempty (map strip parts)) c)).
Proof.
  revert d. induction parts as [|p parts IH]; intros d; simpl; [done|].
  rewrite IH. destruct (nonempty (strip p)); simpl; [|done].
  rewrite append_entry_lookup, extend_extend.
  destruct (string_dec (strip p) c) as [->|Hne].
  - by rewrite decide_True.
  - by rewrite decide_False.
Qed.

Lemma index_language_lookup d lang c :
  index_language d lang !! c
  = extend (d !! c) (repeat lang (count_occ string_dec (claimed_keys lang) c)).
Proof.
  unfold index_language, claimed_keys, get_or.
  destruct (lang !! "isocodes") as [raw|]; simpl; [|done].
  set (text := strip (py_str raw)).
  destruct (decide (text = "" ∨ text = "nan")) as [[->| ->]|Hn]; [done|done|].
  assert (nonempty text && negb (String.eqb text "nan") = true) as ->.
  { apply andb_true_iff. split.
    - destruct text; [tauto|done].
    - apply negb_true_iff, String.eqb_neq. tauto. }
  apply index_parts_lookup.
Qed.

Lemma fold_index_language_lookup glottolog d c :
  fold_left index_language glottolog d !! c = extend (d !! c) (claimed_entries c glottolog).
Proof.
  revert d. induction glottolog as [|lang gl IH]; intros d; simpl; [done|].
  by rewrite IH, index_language_lookup, extend_extend.
Qed.



End Indices.

(** ** The language pass: a hit *)

Section LanguageHit.
Import EnrichWithCoordinates Spec.

Variables (glottolog_lookup : gmap string (list record))
          (family_lookup glottocode_to_family : gmap string string).

Lemma resolve_parent g parent :
  g <> "" -> glottocode_to_family !! g = Some parent ->
  resolve_family family_lookup glottocode_to_family (PyStr g)
  = (PyStr (default "" (family_lookup !! parent)), PyStr parent).
Proof.
  intros Hg Hp. unfold resolve_family. destruct g; [done|]. simpl. by rewrite Hp.
Qed.

Lemma resolve_no_parent gc :
  str_lookup glottocode_to_family gc = None ->
  resolve_family family_lookup glottocode_to_family gc
  = if truthy gc then
      match str_lookup family_lookup gc with
      | Some own => (PyStr own, gc)
      | None => (PyStr "Isolate", PyStr "")
      end
    else (PyStr "", PyStr "").
Proof.
  intros Hp. unfold resolve_family. rewrite Hp.
  destruct (truthy gc); [|done]. by destruct (str_lookup family_lookup gc).
Qed.

(** What the hit branch stores, field by field. *)
Lemma languages_step_hit st lang code glotto rest :
  get_or lang "ROL3" (PyStr "") = PyStr code -> code <> "" ->
  glottolog_lookup !! code = Some (glotto :: rest) ->
  exists r : record,
    enrich_languages_step glottolog_lookup family_lookup glottocode_to_family st lang
    = inr {| enriched := enriched st ++ [r]; matched := S (matched st);
             unmatched := unmatched st |}
    /\ r !! "latitude" = Some (nan_to_none (get glotto "latitude"))
    /\ r !! "longitude" = Some (nan_to_none (get glotto "longitude"))
    /\ r !! "glottocode" = Some (get_or glotto "glottocode" (PyStr ""))
    /\ r !! "family_name"
       = Some (fst (resolve_family family_lookup glottocode_to_family
                      (get_or glotto "glottocode" (PyStr ""))))
    /\ r !! "family_id"
       = Some (snd (resolve_family family_lookup glottocode_to_family
                      (get_or glotto "glottocode" (PyStr ""))))
    /\ r !! "macroarea" = Some (get_or glotto "macroarea" (PyStr ""))
    /\ r !! "coordinate_source" = Some (PyStr "Glottolog")
    /\ r !! "glottolog_match_count" = Some (PyInt (Z.of_nat (S (length rest))))
    /\ (forall k, k ∉ new_fields_languages -> r !! k = lang !! k).
Proof.
  intros Hcode Hne Hidx. unfold enrich_languages_step.
  rewrite Hcode. destruct code as [|a code]; [done|]. simpl. rewrite Hidx. simpl.
  destruct (resolve_family _ _ _) as [fname fid]. simpl.
  eexists. split; [reflexivity|].
  repeat split; try by simplify_map_eq.
  intros k Hk. unfold new_fields_languages in Hk.
  repeat (rewrite lookup_insert_ne; [|intros <-; apply Hk; set_solver]). done.
Qed.

End LanguageHit.

(** ** The family resolver *)

Section FamilyResolver.
Import EnrichWithCoordinates Spec.

(** C1 as amended, broken parent link: when the first candidate of a matched
    language has a non-empty identifier with a recorded parent family that the
    family-name map does not know, the record gets the empty family name and
    the parent identifier, whether or not the identifier is itself a key of the
    family-name map. *)
Theorem family_broken_parent_link :
  forall (glottolog_lookup : gmap string (list record))
         (family_lookup glottocode_to_family : gmap string string)
         (st : loop_state) (lang glotto : record) (rest : list record)
         (code g parent : string),
    get_or lang "ROL3" (PyStr "") = PyStr code -> code <> "" ->
    glottolog_lookup !! code = Some (glotto :: rest) ->
    get_or glotto "glottocode" (PyStr "") = PyStr g -> g <> "" ->
    glottocode_to_family !! g = Some parent ->
    family_lookup !! parent = None ->
    exists r : record,
      enrich_languages_step glottolog_lookup family_lookup glottocode_to_family st lang
      = inr {| enriched := enriched st ++ [r]; matched := S (matched st);
               unmatched := unmatched st |}
      /\ r !! "family_name" = Some (PyStr "")
      /\ r !! "family_id" = Some (PyStr parent).
Proof.
  intros gl fl g2f st lang glotto rest code g parent Hcode Hne Hidx Hg Hgne Hp Hnone.
  destruct (languages_step_hit gl fl g2f st lang code glotto rest Hcode Hne Hidx)
    as (r & Hstep & _ & _ & _ & Hname & Hid & _).
  exists r. split; [exact Hstep|].
  rewrite Hg, (resolve_parent fl g2f g parent Hgne Hp), Hnone in Hname, Hid.
  by split.
Qed.

(** The amended statement at an identifier that is itself a family-level
    entry. *)
Lemma family_broken_parent_link_witness :
  let lang : record := {[ "ROL3" := PyStr "abc" ]} in
  let glotto : record := {[ "glottocode" := PyStr "abc1234" ]} in
  exists r : record,
    enrich_languages_step {[ "abc" := [glotto] ]} {[ "abc1234" := "Own" ]}
      {[ "abc1234" := "fam001" ]} initial lang
    = inr {| enriched := [] ++ [r]; matched := 1; unmatched := [] |}
    /\ r !! "family_name" = Some (PyStr "")
    /\ r !! "family_id" = Some (PyStr "fam001").
Proof.
  intros lang glotto.
  apply (family_broken_parent_link {[ "abc" := [glotto] ]} {[ "abc1234" := "Own" ]}
           {[ "abc1234" := "fam001" ]} initial lang glotto [] "abc" "abc1234" "fam001");
    by vm_compute.
Defined.

(** C1 as stated fails: the identifier abc1234 has the recorded parent fam001,
    which the family-name map does not know, and is itself a key of that map
    with the name Own; the record gets the empty name and fam001, not Own and
    abc1234. *)
Lemma family_tier2_fallback_counterexample :
  let lang : record := {[ "ROL3" := PyStr "abc" ]} in
  let glotto : record := {[ "glottocode" := PyStr "abc1234" ]} in
  let family_lookup : gmap string string := {[ "abc1234" := "Own" ]} in
  let glottocode_to_family : gmap string string := {[ "abc1234" := "fam001" ]} in
  glottocode_to_family !! "abc1234" = Some "fam001"
  /\ family_lookup !! "fam001" = None
  /\ family_lookup !! "abc1234" = Some "Own"
  /\ exists r : record,
       enrich_languages_step {[ "abc" := [glotto] ]} family_lookup glottocode_to_family
         initial lang
       = inr {| enriched := [r]; matched := 1; unmatched := [] |}
       /\ r !! "family_name" = Some (PyStr "")
       /\ r !! "family_id" = Some (PyStr "fam001")
       /\ r !! "family_name" <> Some (PyStr "Own")
       /\ r !! "family_id" <> Some (PyStr "abc1234").
Proof.
  intros lang glotto fl g2f.
  split; [by vm_compute|]. split; [by vm_compute|]. split; [by vm_compute|].
  eexists. split; [vm_compute; reflexivity|].
  repeat split; by vm_compute.
Qed.

(** C2, tier 1 before tier 2: when the first candidate of a matched language
    has a non-empty identifier whose recorded parent family is known to the
    family-name map, the record gets the parent's name and the parent
    identifier.  Nothing is assumed of the identifier's own entry in the
    family-name map: a self-entry does not change the result. *)
Theorem family_parent_takes_precedence :
  forall (glottolog_lookup : gmap string (list record))
         (family_lookup glottocode_to_family : gmap string string)
         (st : loop_state) (lang glotto : record) (rest : list record)
         (code g parent parent_name : string),
    get_or lang "ROL3" (PyStr "") = PyStr code -> code <> "" ->
    glottolog_lookup !! code = Some (glotto :: rest) ->
    get_or glotto "glottocode" (PyStr "") = PyStr g -> g <> "" ->
    glottocode_to_family !! g = Some parent ->
    family_lookup !! parent = Some parent_name ->
    exists r : record,
      enrich_languages_step glottolog_lookup family_lookup glottocode_to_family st lang
      = inr {| enriched := enriched st ++ [r]; matched := S (matched st);
               unmatched := unmatched st |}
      /\ r !! "family_name" = Some (PyStr parent_name)
      /\ r !! "family_id" = Some (PyStr parent).
Proof.
  intros gl fl g2f st lang glotto rest code g parent pname Hcode Hne Hidx Hg Hgne Hp Hfam.
  destruct (languages_step_hit gl fl g2f st lang code glotto rest Hcode Hne Hidx)
    as (r & Hstep & _ & _ & _ & Hname & Hid & _).
  exists r. split; [exact Hstep|].
  rewrite Hg, (resolve_parent fl g2f g parent Hgne Hp), Hfam in Hname, Hid.
  by split.
Qed.

(** The example of the specification (abc1234 under fam001, Indo-European), and
    the same identifier with a self-entry besides. *)
Lemma family_parent_takes_precedence_witness :
  let lang : record := {[ "ROL3" := PyStr "abc" ]} in
  let glotto : record := {[ "glottocode" := PyStr "abc1234" ]} in
  (exists r : record,
     enrich_languages_step {[ "abc" := [glotto] ]} {[ "fam001" := "Indo-European" ]}
       {[ "abc1234" := "fam001" ]} initial lang
     = inr {| enriched := [] ++ [r]; matched := 1; unmatched := [] |}
     /\ r !! "family_name" = Some (PyStr "Indo-European")
     /\ r !! "family_id" = Some (PyStr "fam001"))
  /\ (exists r : record,
        enrich_languages_step {[ "abc" := [glotto] ]}
          {[ "fam001" := "Indo-European"; "abc1234" := "Own" ]}
          {[ "abc1234" := "fam001" ]} initial lang
        = inr {| enriched := [] ++ [r]; matched := 1; unmatched := [] |}
        /\ r !! "family_name" = Some (PyStr "Indo-European")
        /\ r !! "family_id" = Some (PyStr "fam001")).
Proof.
  intros lang glotto. split.
  - apply (family_parent_takes_precedence {[ "abc" := [glotto] ]}
             {[ "fam001" := "Indo-European" ]} {[ "abc1234" := "fam001" ]}
             initial lang glotto [] "abc" "abc1234" "fam001" "Indo-European");
      by vm_compute.
  - apply (family_parent_takes_precedence {[ "abc" := [glotto] ]}
             {[ "fam001" := "Indo-European"; "abc1234" := "Own" ]}
             {[ "abc1234" := "fam001" ]}
             initial lang glotto [] "abc" "abc1234" "fam001" "Indo-European");
      by vm_compute.
Defined.

(** C3, no recorded parent: the first candidate's identifier [gc] is the value
    of its glottocode field, the empty string when the field is absent.  When
    it is non-empty (truthy) and a key of the family-name map the record gets
    its own name and identifier; when it is non-empty and no such key, the name
    Isolate and the empty identifier; when it is empty or null, the empty name
    and the empty identifier, which is not the isolate result. *)
Theorem family_isolate_or_unknown :
  forall (glottolog_lookup : gmap string (list record))
         (family_lookup glottocode_to_family : gmap string string)
         (st : loop_state) (lang glotto : record) (rest : list record)
         (code : string) (gc : scalar),
    get_or lang "ROL3" (PyStr "") = PyStr code -> code <> "" ->
    glottolog_lookup !! code = Some (glotto :: rest) ->
    get_or glotto "glottocode" (PyStr "") = gc ->
    str_lookup glottocode_to_family gc = None ->
    exists r : record,
      enrich_languages_step glottolog_lookup family_lookup glottocode_to_family st lang
      = inr {| enriched := enriched st ++ [r]; matched := S (matched st);
               unmatched := unmatched st |}
      /\ (forall own, truthy gc = true -> str_lookup family_lookup gc = Some own ->
            r !! "family_name" = Some (PyStr own) /\ r !! "family_id" = Some gc)
      /\ (truthy gc = true -> str_lookup family_lookup gc = None ->
            r !! "family_name" = Some (PyStr "Isolate")
            /\ r !! "family_id" = Some (PyStr ""))
      /\ (truthy gc = false ->
            r !! "family_name" = Some (PyStr "") /\ r !! "family_id" = Some (PyStr "")
            /\ r !! "family_name" <> Some (PyStr "Isolate")).
Proof.
  intros gl fl g2f st lang glotto rest code gc Hcode Hne Hidx Hgc Hnp.
  destruct (languages_step_hit gl fl g2f st lang code glotto rest Hcode Hne Hidx)
    as (r & Hstep & _ & _ & _ & Hname & Hid & _).
  exists r. split; [exact Hstep|].
  rewrite Hgc, (resolve_no_parent fl g2f gc Hnp) in Hname, Hid.
  split; [|split].
  - intros own Ht Hown. by rewrite Ht, Hown in Hname, Hid.
  - intros Ht Hown. by rewrite Ht, Hown in Hname, Hid.
  - intros Ht. rewrite Ht in Hname, Hid. by rewrite Hname.
Qed.

(** The example of the specification: iso9999 has no parent and no entry of
    its own, and is an isolate. *)
Lemma family_isolate_or_unknown_witness :
  let lang : record := {[ "ROL3" := PyStr "iso" ]} in
  let glotto : record := {[ "glottocode" := PyStr "iso9999" ]} in
  exists r : record,
    enrich_languages_step {[ "iso" := [glotto] ]} {[ "fam001" := "Indo-European" ]}
      {[ "abc1234" := "fam001" ]} initial lang
    = inr {| enriched := [] ++ [r]; matched := 1; unmatched := [] |}
    /\ r !! "family_name" = Some (PyStr "Isolate")
    /\ r !! "family_id" = Some (PyStr "").
Proof.
  intros lang glotto.
  destruct (family_isolate_or_unknown {[ "iso" := [glotto] ]}
              {[ "fam001" := "Indo-European" ]} {[ "abc1234" := "fam001" ]}
              initial lang glotto [] "iso" (PyStr "iso9999"))
    as (r & Hstep & _ & Hiso & _); try by vm_compute.
  exists r. split; [exact Hstep|]. apply Hiso; by vm_compute.
Defined.

End FamilyResolver.

(** ** Hits and misses of the two passes *)

Section HitsAndMisses.
Import EnrichWithCoordinates CreateEnrichedDatasets Spec.

Lemma set_mem_add s v : set_mem (set_add s v) v = true.
Proof.
  unfold set_add. destruct (set_mem s v) eqn:E; [done|].
  unfold set_mem. rewrite existsb_app. simpl.
  by rewrite key_eqb_refl, orb_true_r.
Qed.

(** A list of an index built by [build_lookup_tables] is never empty, so the
    first candidate of a hit exists. *)
Lemma built_entries_nonempty glottolog code entries :
  build_glottolog_lookup glottolog !! code = Some entries -> entries <> [].
Proof.
  unfold build_glottolog_lookup.
  rewrite fold_index_language_lookup, lookup_empty.
  destruct (claimed_entries code glottolog); simpl; [done|].
  intros [= <-]. done.
Qed.

(** C6 as amended, a hit of the language pass: when the ISO code of a language
    is a non-empty string found in the dialect index, the first candidate of
    the list is the one used; its latitude and its longitude are stored with
    null in place of a missing value (null or NaN) and unchanged otherwise, a
    non-numeric string included; its glottocode and macroarea are stored, the
    empty string standing for an absent field; and the number of candidates of
    the list is stored as the match count. *)
Theorem language_hit_fields :
  forall (glottolog_lookup : gmap string (list record))
         (family_lookup glottocode_to_family : gmap string string)
         (st : loop_state) (lang glotto : record) (rest : list record) (code : string),
    get_or lang "ROL3" (PyStr "") = PyStr code -> code <> "" ->
    glottolog_lookup !! code = Some (glotto :: rest) ->
    exists r : record,
      enrich_languages_step glottolog_lookup family_lookup glottocode_to_family st lang
      = inr {| enriched := enriched st ++ [r]; matched := S (matched st);
               unmatched := unmatched st |}
      /\ r !! "latitude"
         = Some (if isna (get glotto "latitude") then PyNone else get glotto "latitude")
      /\ r !! "longitude"
         = Some (if isna (get glotto "longitude") then PyNone else get glotto "longitude")
      /\ r !! "glottocode" = Some (get_or glotto "glottocode" (PyStr ""))
      /\ r !! "macroarea" = Some (get_or glotto "macroarea" (PyStr ""))
      /\ r !! "coordinate_source" = Some (PyStr "Glottolog")
      /\ r !! "glottolog_match_count"
         = Some (PyInt (Z.of_nat (length (glotto :: rest)))).
Proof.
  intros gl fl g2f st lang glotto rest code Hcode Hne Hidx.
  destruct (languages_step_hit gl fl g2f st lang code glotto rest Hcode Hne Hidx)
    as (r & Hstep & Hlat & Hlng & Hg & _ & _ & Hm & Hsrc & Hcount).
  exists r. destruct Hcount as [Hcount _]. by repeat split.
Qed.

(** The amended statement at a language with two candidates, the first with
    a NaN latitude and a longitude given as text. *)
Lemma language_hit_fields_witness :
  let lang : record := {[ "ROL3" := PyStr "eng" ]} in
  let first : record :=
    {[ "glottocode" := PyStr "stan1293"; "latitude" := PyFloat S754_nan;
       "longitude" := PyStr "east"; "macroarea" := PyStr "Eurasia" ]} in
  let second : record := {[ "glottocode" := PyStr "midd1317" ]} in
  exists r : record,
    enrich_languages_step {[ "eng" := [first; second] ]} ∅ ∅ initial lang
    = inr {| enriched := [] ++ [r]; matched := 1; unmatched := [] |}
    /\ r !! "latitude" = Some PyNone
    /\ r !! "longitude" = Some (PyStr "east")
    /\ r !! "glottocode" = Some (PyStr "stan1293")
    /\ r !! "macroarea" = Some (PyStr "Eurasia")
    /\ r !! "coordinate_source" = Some (PyStr "Glottolog")
    /\ r !! "glottolog_match_count" = Some (PyInt 2).
Proof.
  intros lang first second.
  apply (language_hit_fields {[ "eng" := [first; second] ]} ∅ ∅ initial lang
           first [second] "eng"); by vm_compute.
Defined.

(** C6 as stated fails: a latitude that is not a number, the text abc, is not
    a missing value for [pd.isna] and is stored as it is, not as null. *)
Lemma language_hit_non_numeric_counterexample :
  let lang : record := {[ "ROL3" := PyStr "eng" ]} in
  let glotto : record :=
    {[ "glottocode" := PyStr "stan1293"; "latitude" := PyStr "abc";
       "longitude" := PyInt 0 ]} in
  exists r : record,
    enrich_languages_step {[ "eng" := [glotto] ]} ∅ ∅ initial lang
    = inr {| enriched := [r]; matched := 1; unmatched := [] |}
    /\ r !! "latitude" = Some (PyStr "abc")
    /\ r !! "latitude" <> Some PyNone.
Proof.
  intros lang glotto.
  eexists. split; [vm_compute; reflexivity|].
  split; by vm_compute.
Qed.

(** What the miss branch of the people-group pass stores. *)
Lemma people_groups_step_miss centroid_lookup st pg :
  dict_get centroid_lookup (get_or pg "ROG3" (PyStr "")) = None ->
  exists r : record,
    enrich_people_groups_step centroid_lookup st pg
    = inr {| enriched := enriched st ++ [r]; matched := matched st;
             unmatched := if truthy (get_or pg "ROG3" (PyStr ""))
                          then set_add (unmatched st) (get_or pg "ROG3" (PyStr ""))
                          else unmatched st |}
    /\ dom r = dom pg ∪ list_to_set new_fields_people_groups
    /\ (forall f, f ∈ new_fields_people_groups -> r !! f = Some PyNone)
    /\ (forall k, k ∉ new_fields_people_groups -> r !! k = pg !! k).
Proof.
  intros Hmiss. unfold enrich_people_groups_step. rewrite Hmiss.
  eexists. split; [reflexivity|]. unfold new_fields_people_groups.
  split; [|split].
  - rewrite !dom_insert_L. set_solver.
  - intros f Hf. repeat (apply elem_of_cons in Hf as [->|Hf]; [by simplify_map_eq|]).
    by apply elem_of_nil in Hf.
  - intros k Hk.
    repeat (rewrite lookup_insert_ne; [|intros <-; apply Hk; set_solver]). done.
Qed.

(** What the miss branch of the language pass stores. *)
Lemma languages_step_miss glottolog_lookup family_lookup glottocode_to_family st lang :
  (if truthy (get_or lang "ROL3" (PyStr ""))
   then str_lookup glottolog_lookup (get_or lang "ROL3" (PyStr "")) else None) = None ->
  exists r : record,
    enrich_languages_step glottolog_lookup family_lookup glottocode_to_family st lang
    = inr {| enriched := enriched st ++ [r]; matched := matched st;
             unmatched := if truthy (get_or lang "ROL3" (PyStr ""))
                          then set_add (unmatched st) (get_or lang "ROL3" (PyStr ""))
                          else unmatched st |}
    /\ dom r = dom lang ∪ list_to_set new_fields_languages
    /\ (forall f, f ∈ new_fields_languages -> f <> "glottolog_match_count" ->
          r !! f = Some PyNone)
    /\ r !! "glottolog_match_count" = Some (PyInt 0)
    /\ (forall k, k ∉ new_fields_languages -> r !! k = lang !! k).
Proof.
  intros Hmiss. unfold enrich_languages_step. rewrite Hmiss.
  eexists. split; [reflexivity|]. unfold new_fields_languages.
  split; [|split; [|split]].
  - rewrite !dom_insert_L. set_solver.
  - intros f Hf Hn.
    repeat (apply elem_of_cons in Hf as [->|Hf]; [by simplify_map_eq|]).
    by apply elem_of_nil in Hf.
  - by simplify_map_eq.
  - intros k Hk.
    repeat (rewrite lookup_insert_ne; [|intros <-; apply Hk; set_solver]). done.
Qed.

(** C7 as amended, a miss.  In the two passes of [enrich_with_coordinates.py]
    a record whose code finds no reference entry gets exactly the declared
    additional fields besides its own, all null (the provenance tag too), with
    a match count of zero for a language; a truthy (non-empty) code joins the
    set of unmatched codes, a falsy one leaves the set as it was; the step
    raises nothing and the loop goes on with the remaining records.  The
    denormaliser [enrich_people_group] of [create_enriched_datasets.py] adds no
    field at all on a miss and keeps no set of unmatched codes. *)
Theorem miss_contract :
  (forall (centroid_lookup : dict record) (st : loop_state) (pg : record)
          (more : list record),
      dict_get centroid_lookup (get_or pg "ROG3" (PyStr "")) = None ->
      exists (r : record) (codes : pyset),
        let st' := {| enriched := enriched st ++ [r]; matched := matched st;
                      unmatched := codes |} in
        enrich_people_groups_step centroid_lookup st pg = inr st'
        /\ for_each (enrich_people_groups_step centroid_lookup) (pg :: more) st
           = for_each (enrich_people_groups_step centroid_lookup) more st'
        /\ dom r = dom pg ∪ list_to_set new_fields_people_groups
        /\ (forall f, f ∈ new_fields_people_groups -> r !! f = Some PyNone)
        /\ (forall k, k ∉ new_fields_people_groups -> r !! k = pg !! k)
        /\ (truthy (get_or pg "ROG3" (PyStr "")) = true ->
              codes = set_add (unmatched st) (get_or pg "ROG3" (PyStr ""))
              /\ set_mem codes (get_or pg "ROG3" (PyStr "")) = true)
        /\ (truthy (get_or pg "ROG3" (PyStr "")) = false -> codes = unmatched st))
  /\ (forall (glottolog_lookup : gmap string (list record))
             (family_lookup glottocode_to_family : gmap string string)
             (st : loop_state) (lang : record) (more : list record),
        (if truthy (get_or lang "ROL3" (PyStr ""))
         then str_lookup glottolog_lookup (get_or lang "ROL3" (PyStr ""))
         else None) = None ->
        exists (r : record) (codes : pyset),
          let step :=
            enrich_languages_step glottolog_lookup family_lookup glottocode_to_family in
          let st' := {| enriched := enriched st ++ [r]; matched := matched st;
                        unmatched := codes |} in
          step st lang = inr st'
          /\ for_each step (lang :: more) st = for_each step more st'
          /\ dom r = dom lang ∪ list_to_set new_fields_languages
          /\ (forall f, f ∈ new_fields_languages -> f <> "glottolog_match_count" ->
                r !! f = Some PyNone)
          /\ r !! "glottolog_match_count" = Some (PyInt 0)
          /\ (forall k, k ∉ new_fields_languages -> r !! k = lang !! k)
          /\ (truthy (get_or lang "ROL3" (PyStr "")) = true ->
                codes = set_add (unmatched st) (get_or lang "ROL3" (PyStr ""))
                /\ set_mem codes (get_or lang "ROL3" (PyStr "")) = true)
          /\ (truthy (get_or lang "ROL3" (PyStr "")) = false -> codes = unmatched st))
  /\ (forall (people_group : record) (lk : lookups),
        (if truthy (get people_group "ROG3")
         then dict_get (countries lk) (get people_group "ROG3") else None) = None ->
        (if truthy (get people_group "ROL3")
         then dict_get (languages lk) (get people_group "ROL3") else None) = None ->
        enrich_people_group people_group lk = Flat <$> people_group).
Proof.
  split; [|split].
  - intros idx st pg more Hmiss.
    destruct (people_groups_step_miss idx st pg Hmiss) as (r & Hstep & Hdom & Hnull & Hown).
    eexists r, _. cbv zeta. split; [exact Hstep|].
    split; [by simpl; rewrite Hstep|].
    split; [exact Hdom|]. split; [exact Hnull|]. split; [exact Hown|]. split.
    + intros Ht. rewrite Ht. split; [done|apply set_mem_add].
    + intros Ht. by rewrite Ht.
  - intros gl fl g2f st lang more Hmiss.
    destruct (languages_step_miss gl fl g2f st lang Hmiss)
      as (r & Hstep & Hdom & Hnull & Hcount & Hown).
    eexists r, _. cbv zeta. split; [exact Hstep|].
    split; [by simpl; rewrite Hstep|].
    split; [exact Hdom|]. split; [exact Hnull|]. split; [exact Hcount|].
    split; [exact Hown|]. split.
    + intros Ht. rewrite Ht. split; [done|apply set_mem_add].
    + intros Ht. by rewrite Ht.
  - intros pg lk Hc Hl. unfold enrich_people_group. by rewrite Hc, Hl.
Qed.

(** The amended statement at a people group of unknown country XX, at a
    language of unknown code zzz, and at the same people group in the
    denormaliser. *)
Lemma miss_contract_witness :
  let pg : record := {[ "ROG3" := PyStr "XX"; "PeopNameInCountry" := PyStr "Example" ]} in
  let lang : record := {[ "ROL3" := PyStr "zzz" ]} in
  (exists (r : record) (codes : pyset),
      enrich_people_groups_step [] initial pg
      = inr {| enriched := [] ++ [r]; matched := 0; unmatched := codes |}
      /\ r !! "coordinate_source" = Some PyNone
      /\ codes = [PyStr "XX"])
  /\ (exists (r : record) (codes : pyset),
        enrich_languages_step ∅ ∅ ∅ initial lang
        = inr {| enriched := [] ++ [r]; matched := 0; unmatched := codes |}
        /\ r !! "glottolog_match_count" = Some (PyInt 0)
        /\ codes = [PyStr "zzz"])
  /\ enrich_people_group pg {| countries := []; languages := [] |} = Flat <$> pg.
Proof.
  intros pg lang. split; [|split].
  - destruct (proj1 miss_contract [] initial pg [])
      as (r & codes & Hstep & _ & _ & Hnull & _ & Hadd & _); [by vm_compute|].
    exists r, codes. split; [exact Hstep|]. split.
    + apply Hnull. unfold new_fields_people_groups. set_solver.
    + by destruct Hadd as [-> _]; [vm_compute|].
  - destruct (proj1 (proj2 miss_contract) ∅ ∅ ∅ initial lang [])
      as (r & codes & Hstep & _ & _ & _ & Hcount & _ & Hadd & _); [by vm_compute|].
    exists r, codes. split; [exact Hstep|]. split; [exact Hcount|].
    by destruct Hadd as [-> _]; [vm_compute|].
  - apply (proj2 (proj2 miss_contract)); by vm_compute.
Defined.

(** C7 as stated fails in the denormaliser: a people group whose country and
    language codes find nothing comes back with its own fields only; the
    declared fields country_data and language_data are absent, not null. *)
Lemma miss_contract_denormaliser_counterexample :
  let pg : record := {[ "ROG3" := PyStr "XX"; "ROL3" := PyStr "zzz" ]} in
  let lk := {| countries := [(PyStr "US", {[ "ROG3" := PyStr "US" ]})];
               languages := [(PyStr "eng", {[ "ROL3" := PyStr "eng" ]})] |} in
  enrich_people_group pg lk = Flat <$> pg
  /\ enrich_people_group pg lk !! "country_data" = None
  /\ enrich_people_group pg lk !! "language_data" = None
  /\ enrich_people_group pg lk !! "country_data" <> Some (Flat PyNone).
Proof.
  intros pg lk. repeat split; by vm_compute.
Qed.

End HitsAndMisses.

(** ** The passes over a collection *)

Section Passes.
Import EnrichWithCoordinates Spec.

Section Generic.
Variables (step : loop_state -> record -> result loop_state)
          (hit : record -> bool) (code : record -> scalar)
          (post : record -> record -> Prop).

Lemma for_each_ok xs :
  Forall (step_ok step hit code post) xs ->
  forall st, exists rs,
    for_each step xs st
    = inr {| enriched := enriched st ++ rs;
             matched := (matched st + length (List.filter hit xs))%nat;
             unmatched := unmatched_codes hit code xs (unmatched st) |}
    /\ Forall2 post xs rs.
Proof.
  induction 1 as [|x xs Hx _ IH]; intros st.
  - exists []. destruct st. simpl. rewrite app_nil_r, Nat.add_0_r. by split.
  - destruct (Hx st) as (r & Hstep & Hpost).
    simpl. rewrite Hstep. simpl.
    edestruct IH as (rs & -> & Hrs). exists (r :: rs). simpl.
    split; [|by constructor].
    rewrite <- app_assoc. simpl. do 2 f_equal.
    destruct (hit x); simpl; lia.
Qed.

(** Whether a turn raises depends on the record alone, so a pass that returns
    went through good turns only. *)
Lemma for_each_returns xs st st' :
  (forall x, step_ok step hit code post x \/ exists e, forall st, step st x = inl e) ->
  for_each step xs st = inr st' ->
  Forall (step_ok step hit code post) xs.
Proof.
  intros Hdec. revert st. induction xs as [|x xs IH]; intros st Hrun; [constructor|].
  simpl in Hrun. destruct (Hdec x) as [Hok|[e He]].
  - constructor; [done|]. destruct (Hok st) as (r & Hstep & _).
    rewrite Hstep in Hrun. simpl in Hrun. eauto.
  - by rewrite He in Hrun.
Qed.

Lemma Forall2_frame names xs rs :
  Forall2 (keeps_outside names) xs rs -> frame_of names xs rs.
Proof.
  intros H. split.
  - symmetry. by eapply Forall2_length.
  - intros i x Hi. destruct (Forall2_lookup_l _ _ _ _ _ H Hi) as (r & Hr & Hk). eauto.
Qed.

End Generic.

(** One turn of the people-group pass. *)
Lemma people_groups_step_cases centroid_lookup pg :
  step_ok (enrich_people_groups_step centroid_lookup)
    (fun pg => found (country_of centroid_lookup pg)) country_code
    (people_group_post centroid_lookup) pg
  \/ exists e, forall st, enrich_people_groups_step centroid_lookup st pg = inl e.
Proof.
  unfold step_ok, people_group_post, country_of, country_code.
  destruct (dict_get centroid_lookup (get_or pg "ROG3" (PyStr ""))) as [centroid|] eqn:E.
  - unfold enrich_people_groups_step, getitem. rewrite E.
    destruct (centroid !! "latitude") as [lat|] eqn:Hlat; [|right; by eexists].
    destruct (centroid !! "longitude") as [lng|] eqn:Hlng; [|right; by eexists].
    left. intros st. eexists. simpl. split; [reflexivity|]. split.
    + intros k Hk. unfold new_fields_people_groups in Hk.
      repeat (rewrite lookup_insert_ne; [|intros <-; apply Hk; set_solver]). done.
    + repeat split; by simplify_map_eq.
  - left. intros st.
    destruct (people_groups_step_miss centroid_lookup st pg E) as (r & Hstep & _ & Hnull & Hown).
    exists r. simpl. split; [exact Hstep|]. by split.
Qed.

Lemma people_groups_step_ok centroid_lookup pg :
  (forall centroid, country_of centroid_lookup pg = Some centroid ->
                    centroid_complete centroid) ->
  step_ok (enrich_people_groups_step centroid_lookup)
    (fun pg => found (country_of centroid_lookup pg)) country_code
    (people_group_post centroid_lookup) pg.
Proof.
  intros Hc. destruct (people_groups_step_cases centroid_lookup pg) as [Hok|[e He]]; [done|].
  exfalso. specialize (He initial). revert He.
  unfold enrich_people_groups_step, country_of, country_code, getitem in *.
  destruct (dict_get centroid_lookup (get_or pg "ROG3" (PyStr ""))) as [centroid|]; [|done].
  destruct (Hc centroid eq_refl) as [[lat ->] [lng ->]]. done.
Qed.

(** One turn of the language pass. *)
Lemma languages_step_cases glottolog_lookup family_lookup glottocode_to_family lang :
  step_ok (enrich_languages_step glottolog_lookup family_lookup glottocode_to_family)
    (fun lang => found (dialects_of glottolog_lookup lang)) iso_code language_post lang
  \/ exists e, forall st,
       enrich_languages_step glottolog_lookup family_lookup glottocode_to_family st lang
       = inl e.
Proof.
  unfold step_ok, language_post, dialects_of, iso_code.
  destruct (if truthy (get_or lang "ROL3" (PyStr ""))
            then str_lookup glottolog_lookup (get_or lang "ROL3" (PyStr ""))
            else None) as [[|glotto rest]|] eqn:E.
  - right. exists IndexError. intros st. unfold enrich_languages_step. by rewrite E.
  - left. intros st.
    destruct (truthy (get_or lang "ROL3" (PyStr ""))) eqn:Ht; [|done].
    destruct (get_or lang "ROL3" (PyStr "")) as [| | | |code] eqn:Hcode; try done.
    simpl in E. assert (code <> "") as Hne by (by destruct code).
    destruct (languages_step_hit glottolog_lookup family_lookup glottocode_to_family
                st lang code glotto rest Hcode Hne E) as (r & Hstep & Hrest).
    exists r. simpl. split; [exact Hstep|].
    destruct Hrest as (_ & _ & _ & _ & _ & _ & _ & _ & Hown). exact Hown.
  - left. intros st.
    destruct (languages_step_miss glottolog_lookup family_lookup glottocode_to_family
                st lang E) as (r & Hstep & _ & _ & _ & Hown).
    exists r. simpl. by split.
Qed.

Lemma languages_step_ok glottolog_lookup family_lookup glottocode_to_family lang :
  (forall entries, dialects_of glottolog_lookup lang = Some entries -> entries <> []) ->
  step_ok (enrich_languages_step glottolog_lookup family_lookup glottocode_to_family)
    (fun lang => found (dialects_of glottolog_lookup lang)) iso_code language_post lang.
Proof.
  intros Hne.
  destruct (languages_step_cases glottolog_lookup family_lookup glottocode_to_family lang)
    as [Hok|[e He]]; [done|].
  exfalso. specialize (He initial). revert He.
  unfold enrich_languages_step, dialects_of, iso_code in *.
  destruct (if truthy (get_or lang "ROL3" (PyStr ""))
            then str_lookup glottolog_lookup (get_or lang "ROL3" (PyStr ""))
            else None) as [[|glotto rest]|]; [by destruct (Hne [])| |done].
  simpl. by destruct (resolve_family _ _ _).
Qed.

End Passes.

(** ** Sorting the unmatched codes *)

Section Sorting.
Import EnrichWithCoordinates Spec.

Lemma ltb_asym a b : String.ltb a b = true -> String.ltb b a = false.
Proof.
  unfold String.ltb. rewrite (String.compare_antisym a b).
  by destruct (String.compare b a).
Qed.

Lemma insert_sorted_text x l :
  is_text x -> Forall is_text l -> Sorted text_le l ->
  exists l', insert_sorted x l = inr l'
             /\ Permutation (x :: l) l'
             /\ Sorted text_le l'
             /\ (forall y, text_le y x -> HdRel text_le y l -> HdRel text_le y l').
Proof.
  intros [a ->]. induction l as [|y l IH]; intros Hall Hsorted.
  - exists [PyStr a]. simpl.
    split; [done|]. split; [done|]. split; [by repeat constructor|].
    intros y Hy _. by constructor.
  - apply Forall_cons in Hall as [[b ->] Hall].
    apply Sorted_inv in Hsorted as [Hsorted Hhd].
    simpl. destruct (String.ltb a b) eqn:E.
    + exists (PyStr a :: PyStr b :: l).
      split; [done|]. split; [done|]. split.
      * constructor; [by constructor|]. constructor. simpl. by apply ltb_asym.
      * intros y Hy _. by constructor.
    + destruct (IH Hall Hsorted) as (l' & -> & Hperm & Hs & Hkeep). simpl.
      exists (PyStr b :: l').
      split; [done|]. split; [|split].
      * rewrite perm_swap. by constructor.
      * constructor; [done|]. by apply Hkeep.
      * intros z _ Hz. apply HdRel_inv in Hz. by constructor.
Qed.

Lemma py_sorted_text l :
  Forall is_text l ->
  exists l', py_sorted l = inr l' /\ Permutation l l' /\ Sorted text_le l'.
Proof.
  induction 1 as [|x l Hx Hl IH].
  - exists []. by repeat split.
  - destruct IH as (l0 & Hrun & Hperm & Hs).
    destruct (insert_sorted_text x l0 Hx) as (l' & Hins & Hperm' & Hs' & _); [|done|].
    { by rewrite <- Hperm. }
    exists l'. simpl. rewrite Hrun. simpl. repeat split; [done| |done].
    by rewrite <- Hperm', <- Hperm.
Qed.

Lemma set_mem_text s v :
  Forall is_text s -> is_text v -> set_mem s v = true <-> In v s.
Proof.
  intros Hs [b ->]. unfold set_mem. rewrite existsb_exists. split.
  - intros (w & Hw & Heq). rewrite Forall_forall in Hs.
    destruct (Hs w) as [a ->]; [by apply list_elem_of_In|].
    apply key_eqb_str in Heq. by subst.
  - intros Hin. exists (PyStr b). split; [done|apply key_eqb_refl].
Qed.

Lemma note_unmatched_text codes c :
  Forall is_text codes -> is_text c -> NoDup codes ->
  Forall is_text (note_unmatched codes c)
  /\ NoDup (note_unmatched codes c)
  /\ (forall d, In d (note_unmatched codes c) <-> In d codes \/ (truthy c = true /\ c = d)).
Proof.
  intros Hs Hc Hnd. unfold note_unmatched, set_add.
  destruct (truthy c); [|split; [done|split; [done|intros d; intuition congruence]]].
  destruct (set_mem codes c) eqn:E.
  - apply (set_mem_text codes c Hs Hc) in E.
    split; [done|split; [done|]]. intros d. split; [tauto|].
    intros [?|[_ <-]]; done.
  - assert (~ In c codes) as Hnot.
    { intros Hin. apply (set_mem_text codes c Hs Hc) in Hin. congruence. }
    split; [apply Forall_app; by repeat constructor|]. split.
    + apply NoDup_app. split; [done|]. split; [|apply NoDup_singleton].
      intros d Hd Hd'. apply list_elem_of_In in Hd. apply list_elem_of_singleton in Hd'.
      by subst.
    + intros d. rewrite in_app_iff. simpl. intuition.
Qed.

Lemma unmatched_codes_text hit code xs init :
  Forall (fun x => is_text (code x)) xs -> Forall is_text init -> NoDup init ->
  Forall is_text (unmatched_codes hit code xs init)
  /\ NoDup (unmatched_codes hit code xs init)
  /\ (forall c, In c (unmatched_codes hit code xs init)
                <-> In c init
                    \/ exists x, In x xs /\ hit x = false
                                 /\ truthy (code x) = true /\ code x = c).
Proof.
  intros Hxs. revert init. induction Hxs as [|x xs Hx _ IH]; intros init Hinit Hnd.
  - simpl. split; [done|split; [done|]]. intros c. split; [tauto|].
    by intros [?|(x & [] & _)].
  - simpl. destruct (hit x) eqn:Hhit.
    + destruct (IH init Hinit Hnd) as (Ht & Hn & Hin).
      split; [done|split; [done|]]. intros c. rewrite Hin. split.
      * intros [?|(y & Hy & Hrest)]; [by left|]. right. exists y. tauto.
      * intros [?|(y & [<-|Hy] & Hmiss & Hrest)]; [by left|congruence|].
        right. exists y. tauto.
    + destruct (note_unmatched_text init (code x) Hinit Hx Hnd) as (Ht0 & Hn0 & Hin0).
      destruct (IH _ Ht0 Hn0) as (Ht & Hn & Hin).
      split; [done|split; [done|]]. intros c. rewrite Hin, Hin0. split.
      * intros [[?|[Htr <-]]|(y & Hy & Hrest)]; [by left| |].
        -- right. exists x. tauto.
        -- right. exists y. tauto.
      * intros [?|(y & [<-|Hy] & Hmiss & Htr & <-)]; [tauto|tauto|].
        right. exists y. tauto.
Qed.

End Sorting.

(** ** What a pass returns and reports *)

Section Reports.
Import EnrichWithCoordinates Spec.

Lemma percentage_returns part total :
  total <> 0%nat -> exists rate, percentage part total = inr rate.
Proof.
  intros Hne. unfold percentage, true_div.
  destruct (Z.eqb_spec (Z.of_nat total) 0) as [Hz|_]; [lia|]. simpl. eauto.
Qed.

Lemma summarize_inv total st enr rep :
  summarize total st = inr (enr, rep) ->
  enr = enriched st /\ rep_matched rep = matched st /\ rep_total rep = total
  /\ percentage (matched st) total = inr (rep_rate rep).
Proof.
  unfold summarize. destruct (percentage (matched st) total) as [e|rate]; [done|].
  cbn [bind ret]. destruct (unmatched st) as [|c codes]; cbn [bind ret].
  - intros [= <- <-]. by repeat split.
  - destruct (py_sorted (c :: codes)) as [e|l]; [done|]. cbn [bind ret].
    intros [= <- <-]. by repeat split.
Qed.

Lemma summarize_returns total st :
  total <> 0%nat -> Forall is_text (unmatched st) ->
  exists rate sorted,
    percentage (matched st) total = inr rate
    /\ Permutation (unmatched st) sorted /\ Sorted text_le sorted
    /\ summarize total st
       = inr (enriched st,
              {| rep_matched := matched st; rep_total := total; rep_rate := rate;
                 rep_unmatched := match unmatched st with
                                  | [] => None
                                  | _ => Some (length (unmatched st), take 10 sorted)
                                  end |}).
Proof.
  intros Hne Htext.
  destruct (percentage_returns (matched st) total Hne) as (rate & Hrate).
  destruct (py_sorted_text (unmatched st) Htext) as (sorted & Hsort & Hperm & Hs).
  exists rate, sorted. split; [done|]. split; [done|]. split; [done|].
  unfold summarize. rewrite Hrate. cbn [bind ret].
  destruct (unmatched st) as [|c codes]; [done|].
  by rewrite Hsort.
Qed.

Section Generic.
Variables (step : loop_state -> record -> result loop_state)
          (hit : record -> bool) (code : record -> scalar)
          (post : record -> record -> Prop).

Lemma pass_inv xs enr rep :
  (forall x, step_ok step hit code post x \/ exists e, forall st, step st x = inl e) ->
  bind (for_each step xs initial) (summarize (length xs)) = inr (enr, rep) ->
  Forall2 post xs enr
  /\ rep_matched rep = length (List.filter hit xs)
  /\ rep_total rep = length xs
  /\ percentage (rep_matched rep) (rep_total rep) = inr (rep_rate rep).
Proof.
  intros Hcases Hrun.
  destruct (for_each step xs initial) as [e|st] eqn:Hloop; [done|]. simpl in Hrun.
  pose proof (for_each_returns step hit code post xs initial st Hcases Hloop) as Hok.
  destruct (for_each_ok step hit code post xs Hok initial) as (rs & Hloop' & Hpost).
  rewrite Hloop in Hloop'. injection Hloop' as ->. simpl in *.
  apply summarize_inv in Hrun as (-> & Hm & Ht & Hp). simpl in *.
  rewrite Hm, Ht. by repeat split.
Qed.

Lemma pass_returns xs :
  xs <> [] ->
  Forall (step_ok step hit code post) xs ->
  Forall (fun x => is_text (code x)) xs ->
  exists enr rep codes sorted,
    bind (for_each step xs initial) (summarize (length xs)) = inr (enr, rep)
    /\ Forall2 post xs enr
    /\ rep_total rep = length xs
    /\ rep_matched rep = length (List.filter hit xs)
    /\ percentage (rep_matched rep) (rep_total rep) = inr (rep_rate rep)
    /\ (forall c, In c codes
                  <-> exists x, In x xs /\ hit x = false
                                /\ truthy (code x) = true /\ code x = c)
    /\ NoDup codes
    /\ Permutation codes sorted /\ Sorted text_le sorted
    /\ rep_unmatched rep = match codes with
                           | [] => None
                           | _ => Some (length codes, take 10 sorted)
                           end.
Proof.
  intros Hne Hok Htext.
  destruct (for_each_ok step hit code post xs Hok initial) as (rs & Hloop & Hpost).
  simpl in Hloop.
  destruct (unmatched_codes_text hit code xs [] Htext) as (Hct & Hnd & Hin);
    [constructor|constructor|].
  set (st := {| enriched := rs; matched := length (List.filter hit xs);
                unmatched := unmatched_codes hit code xs [] |}) in *.
  destruct (summarize_returns (length xs) st) as (rate & sorted & Hrate & Hperm & Hs & Hsum).
  { by destruct xs. }
  { done. }
  eexists rs, _, (unmatched_codes hit code xs []), sorted.
  rewrite Hloop. simpl. split; [exact Hsum|]. simpl.
  split; [done|]. split; [done|]. split; [done|]. split; [done|]. split.
  - intros c. rewrite Hin. simpl. split; [|by right].
    by intros [[]|?].
  - by repeat split.
Qed.

End Generic.

Lemma enrich_people_groups_inv people_groups centroid_lookup enr rep :
  enrich_people_groups people_groups centroid_lookup = inr (enr, rep) ->
  Forall2 (people_group_post centroid_lookup) people_groups enr
  /\ rep_matched rep
     = length (List.filter (fun pg => found (country_of centroid_lookup pg)) people_groups)
  /\ rep_total rep = length people_groups
  /\ percentage (rep_matched rep) (rep_total rep) = inr (rep_rate rep).
Proof.
  apply pass_inv with (code := country_code). apply people_groups_step_cases.
Qed.

Lemma enrich_languages_inv languages glottolog_lookup family_lookup glottocode_to_family
    enr rep :
  enrich_languages languages glottolog_lookup family_lookup glottocode_to_family
  = inr (enr, rep) ->
  Forall2 language_post languages enr
  /\ rep_matched rep
     = length (List.filter (fun lang => found (dialects_of glottolog_lookup lang)) languages)
  /\ rep_total rep = length languages
  /\ percentage (rep_matched rep) (rep_total rep) = inr (rep_rate rep).
Proof.
  apply pass_inv with (code := iso_code). apply languages_step_cases.
Qed.

Lemma Forall2_keeps centroid_lookup xs rs :
  Forall2 (people_group_post centroid_lookup) xs rs ->
  Forall2 (keeps_outside new_fields_people_groups) xs rs.
Proof. intros H. eapply Forall2_impl; [exact H|]. by intros x r [Hk _]. Qed.

End Reports.

(** ** The frame of enrichment *)

Section Frame.
Import EnrichWithCoordinates Spec.

Lemma dialects_nonempty (glottolog_lookup : gmap string (list record)) lang :
  (forall code entries, glottolog_lookup !! code = Some entries -> entries <> []) ->
  forall entries, dialects_of glottolog_lookup lang = Some entries -> entries <> [].
Proof.
  intros Hne entries. unfold dialects_of.
  destruct (truthy (iso_code lang)); [|done].
  destruct (iso_code lang); simpl; try done. apply Hne.
Qed.

(** C8 as amended, the frame of enrichment.  A pass over a non-empty collection
    whose codes are text returns a new collection, given that every centroid a
    people group finds has its latitude and longitude (for the language pass:
    that no list of the dialect index is empty, which holds of a built index);
    and whenever a pass returns, the collection it returns has the length and
    the order of its input, the record at each position agreeing with the
    input record on every field of the input other than the added field names.
    An input field that carries one of the added names is overwritten. *)
Theorem enrichment_frame :
  (forall (people_groups : list record) (centroid_lookup : dict record),
      people_groups <> [] ->
      (forall pg centroid, In pg people_groups ->
         country_of centroid_lookup pg = Some centroid -> centroid_complete centroid) ->
      Forall (fun pg => is_text (country_code pg)) people_groups ->
      exists enr rep,
        enrich_people_groups people_groups centroid_lookup = inr (enr, rep)
        /\ frame_of new_fields_people_groups people_groups enr)
  /\ (forall (people_groups : list record) (centroid_lookup : dict record) enr rep,
        enrich_people_groups people_groups centroid_lookup = inr (enr, rep) ->
        frame_of new_fields_people_groups people_groups enr)
  /\ (forall (languages : list record) (glottolog_lookup : gmap string (list record))
             (family_lookup glottocode_to_family : gmap string string),
        languages <> [] ->
        (forall code entries, glottolog_lookup !! code = Some entries -> entries <> []) ->
        Forall (fun lang => is_text (iso_code lang)) languages ->
        exists enr rep,
          enrich_languages languages glottolog_lookup family_lookup glottocode_to_family
          = inr (enr, rep)
          /\ frame_of new_fields_languages languages enr)
  /\ (forall (languages : list record) (glottolog_lookup : gmap string (list record))
             (family_lookup glottocode_to_family : gmap string string) enr rep,
        enrich_languages languages glottolog_lookup family_lookup glottocode_to_family
        = inr (enr, rep) ->
        frame_of new_fields_languages languages enr).
Proof.
  split; [|split; [|split]].
  - intros pgs idx Hne Hcomplete Htext.
    destruct (pass_returns (enrich_people_groups_step idx)
                (fun pg => found (country_of idx pg)) country_code
                (people_group_post idx) pgs Hne)
      as (enr & rep & _ & _ & Hrun & Hpost & _); [|done|].
    { apply Forall_forall. intros pg Hpg. apply people_groups_step_ok.
      intros centroid. apply Hcomplete. by apply list_elem_of_In. }
    exists enr, rep. split; [exact Hrun|].
    by eapply Forall2_frame, Forall2_keeps.
  - intros pgs idx enr rep Hrun.
    apply enrich_people_groups_inv in Hrun as [Hpost _].
    by eapply Forall2_frame, Forall2_keeps.
  - intros langs gl fl g2f Hne Hidx Htext.
    destruct (pass_returns (enrich_languages_step gl fl g2f)
                (fun lang => found (dialects_of gl lang)) iso_code language_post langs Hne)
      as (enr & rep & _ & _ & Hrun & Hpost & _); [|done|].
    { apply Forall_forall. intros lang _. apply languages_step_ok.
      by apply dialects_nonempty. }
    exists enr, rep. split; [exact Hrun|]. by apply Forall2_frame.
  - intros langs gl fl g2f enr rep Hrun.
    apply enrich_languages_inv in Hrun as [Hpost _]. by apply Forall2_frame.
Qed.

(** The amended statement at two people groups, one of a known country. *)
Lemma enrichment_frame_witness :
  let centroid : record :=
    {[ "iso_a3" := PyStr "USA"; "latitude" := PyInt 10; "longitude" := PyInt 20 ]} in
  let pgs : list record :=
    [ {[ "ROG3" := PyStr "USA"; "PeopNameInCountry" := PyStr "First" ]};
      {[ "ROG3" := PyStr "XXX"; "PeopNameInCountry" := PyStr "Second" ]} ] in
  exists enr rep,
    enrich_people_groups pgs (build_centroid_lookup [centroid]) = inr (enr, rep)
    /\ frame_of new_fields_people_groups pgs enr.
Proof.
  intros centroid pgs.
  apply (proj1 enrichment_frame pgs (build_centroid_lookup [centroid])).
  - done.
  - intros pg c [<-|[<-|[]]]; vm_compute; [|done].
    intros [= <-]. split; by eexists.
  - repeat constructor; by eexists.
Defined.

(** C8 as stated fails: a people group that already has a field named
    continent comes back with that field overwritten. *)
Lemma enrichment_overwrites_counterexample :
  let pg : record := {[ "ROG3" := PyStr "XXX"; "continent" := PyStr "Asia" ]} in
  exists enr rep r,
    enrich_people_groups [pg] [] = inr (enr, rep)
    /\ enr !! 0%nat = Some r
    /\ pg !! "continent" = Some (PyStr "Asia")
    /\ r !! "continent" = Some PyNone
    /\ r !! "continent" <> pg !! "continent".
Proof.
  intros pg. eexists _, _, _.
  split; [vm_compute; reflexivity|].
  split; [reflexivity|]. repeat split; by vm_compute.
Qed.

End Frame.

(** ** Completion and the report *)

Section Completion.
Import EnrichWithCoordinates Spec.

Lemma found_false {A} (o : option A) : found o = false <-> o = None.
Proof. destruct o; simpl; split; congruence. Qed.

(** An empty collection stops the pass at the match rate: the division by the
    number of records raises. *)
Lemma enrich_people_groups_empty centroid_lookup :
  enrich_people_groups [] centroid_lookup = inl ZeroDivisionError.
Proof. reflexivity. Qed.

(** The run of the specification's end-to-end example: three people groups,
    two of a known country. *)
Lemma enrich_people_groups_two_of_three :
  let idx := build_centroid_lookup
               [ {[ "iso_a3" := PyStr "USA"; "latitude" := PyInt 10;
                    "longitude" := PyInt 20 ]} ] in
  let pgs : list record :=
    [ {[ "ROG3" := PyStr "USA" ]}; {[ "ROG3" := PyStr "XXX" ]}; {[ "ROG3" := PyStr "USA" ]} ] in
  exists enr,
    enrich_people_groups pgs idx
    = inr (enr, {| rep_matched := 2; rep_total := 3; rep_rate := "66.7%";
                   rep_unmatched := Some (1%nat, [PyStr "XXX"]) |}).
Proof. intros idx pgs. eexists. vm_compute. reflexivity. Qed.

(** C9 as amended, completion and report.  A pass over a non-empty collection
    whose codes are text (given, for people groups, that every centroid found
    has its latitude and longitude, and for languages that no list of the
    dialect index is empty) raises nothing and reports the number of records,
    the number of matched records, the match rate 100 * matched / total to one
    decimal, and, when some code is unmatched, the number of distinct unmatched
    codes with the first ten of them in ascending order.  Two matched records
    of three give 66.7%. *)
Theorem pass_completes_and_reports :
  (forall (people_groups : list record) (centroid_lookup : dict record),
      people_groups <> [] ->
      (forall pg centroid, In pg people_groups ->
         country_of centroid_lookup pg = Some centroid -> centroid_complete centroid) ->
      Forall (fun pg => is_text (country_code pg)) people_groups ->
      exists enr rep codes sorted,
        enrich_people_groups people_groups centroid_lookup = inr (enr, rep)
        /\ length enr = length people_groups
        /\ rep_total rep = length people_groups
        /\ rep_matched rep
           = length (List.filter (fun pg => found (country_of centroid_lookup pg))
                       people_groups)
        /\ percentage (rep_matched rep) (rep_total rep) = inr (rep_rate rep)
        /\ (forall c, In c codes
                      <-> exists pg, In pg people_groups
                                     /\ country_of centroid_lookup pg = None
                                     /\ truthy (country_code pg) = true
                                     /\ country_code pg = c)
        /\ NoDup codes
        /\ Permutation codes sorted /\ Sorted text_le sorted
        /\ rep_unmatched rep = match codes with
                               | [] => None
                               | _ => Some (length codes, take 10 sorted)
                               end)
  /\ (forall (languages : list record) (glottolog_lookup : gmap string (list record))
             (family_lookup glottocode_to_family : gmap string string),
        languages <> [] ->
        (forall code entries, glottolog_lookup !! code = Some entries -> entries <> []) ->
        Forall (fun lang => is_text (iso_code lang)) languages ->
        exists enr rep codes sorted,
          enrich_languages languages glottolog_lookup family_lookup glottocode_to_family
          = inr (enr, rep)
          /\ length enr = length languages
          /\ rep_total rep = length languages
          /\ rep_matched rep
             = length (List.filter (fun lang => found (dialects_of glottolog_lookup lang))
                         languages)
          /\ percentage (rep_matched rep) (rep_total rep) = inr (rep_rate rep)
          /\ (forall c, In c codes
                        <-> exists lang, In lang languages
                                         /\ dialects_of glottolog_lookup lang = None
                                         /\ truthy (iso_code lang) = true
                                         /\ iso_code lang = c)
          /\ NoDup codes
          /\ Permutation codes sorted /\ Sorted text_le sorted
          /\ rep_unmatched rep = match codes with
                                 | [] => None
                                 | _ => Some (length codes, take 10 sorted)
                                 end)
  /\ percentage 2 3 = inr "66.7%".
Proof.
  split; [|split].
  - intros pgs idx Hne Hcomplete Htext.
    destruct (pass_returns (enrich_people_groups_step idx)
                (fun pg => found (country_of idx pg)) country_code
                (people_group_post idx) pgs Hne)
      as (enr & rep & codes & sorted & Hrun & Hpost & Ht & Hm & Hp & Hin & Hrest); [|done|].
    { apply Forall_forall. intros pg Hpg. apply people_groups_step_ok.
      intros centroid. apply Hcomplete. by apply list_elem_of_In. }
    exists enr, rep, codes, sorted. split; [exact Hrun|].
    split; [symmetry; by eapply Forall2_length|].
    split; [done|]. split; [done|]. split; [done|]. split; [|done].
    intros c. rewrite Hin. by setoid_rewrite found_false.
  - intros langs gl fl g2f Hne Hidx Htext.
    destruct (pass_returns (enrich_languages_step gl fl g2f)
                (fun lang => found (dialects_of gl lang)) iso_code language_post langs Hne)
      as (enr & rep & codes & sorted & Hrun & Hpost & Ht & Hm & Hp & Hin & Hrest); [|done|].
    { apply Forall_forall. intros lang _. apply languages_step_ok.
      by apply dialects_nonempty. }
    exists enr, rep, codes, sorted. split; [exact Hrun|].
    split; [symmetry; by eapply Forall2_length|].
    split; [done|]. split; [done|]. split; [done|]. split; [|done].
    intros c. rewrite Hin. by setoid_rewrite found_false.
  - by vm_compute.
Qed.

(** The amended statement at the end-to-end example of the specification:
    two of three people groups match, and the rate reads 66.7%. *)
Lemma pass_completes_and_reports_witness :
  let idx := build_centroid_lookup
               [ {[ "iso_a3" := PyStr "USA"; "latitude" := PyInt 10;
                    "longitude" := PyInt 20 ]} ] in
  let pgs : list record :=
    [ {[ "ROG3" := PyStr "USA" ]}; {[ "ROG3" := PyStr "XXX" ]}; {[ "ROG3" := PyStr "USA" ]} ] in
  exists enr rep,
    enrich_people_groups pgs idx = inr (enr, rep)
    /\ rep_total rep = 3%nat /\ rep_matched rep = 2%nat /\ rep_rate rep = "66.7%".
Proof.
  intros idx pgs.
  destruct (proj1 pass_completes_and_reports pgs idx)
    as (enr & rep & codes & sorted & Hrun & _ & Ht & Hm & Hp & _).
  - done.
  - intros pg c [<-|[<-|[<-|[]]]]; vm_compute; try done;
      intros [= <-]; split; by eexists.
  - repeat constructor; by eexists.
  - exists enr, rep. split; [exact Hrun|].
    change (rep_total rep = 3%nat) in Ht.
    assert (rep_matched rep = 2%nat) as Hm2 by (rewrite Hm; by vm_compute).
    split; [exact Ht|]. split; [exact Hm2|].
    rewrite Ht, Hm2 in Hp. vm_compute in Hp. injection Hp as Hp.
    symmetry. exact Hp.
Defined.

(** C9 as stated fails: with six unmatched codes the report lists the six of
    them, in order, and not the first five. *)
Lemma report_sample_counterexample :
  let pgs : list record :=
    [ {[ "ROG3" := PyStr "FFF" ]}; {[ "ROG3" := PyStr "EEE" ]}; {[ "ROG3" := PyStr "DDD" ]};
      {[ "ROG3" := PyStr "CCC" ]}; {[ "ROG3" := PyStr "BBB" ]}; {[ "ROG3" := PyStr "AAA" ]} ] in
  exists enr sample,
    enrich_people_groups pgs []
    = inr (enr, {| rep_matched := 0; rep_total := 6; rep_rate := "0.0%";
                   rep_unmatched := Some (6%nat, sample) |})
    /\ sample = [PyStr "AAA"; PyStr "BBB"; PyStr "CCC"; PyStr "DDD"; PyStr "EEE"; PyStr "FFF"]
    /\ sample <> take 5 sample.
Proof.
  intros pgs. eexists _, _.
  split; [vm_compute; reflexivity|]. split; [reflexivity|]. done.
Qed.

End Completion.

(** ** The coverage written to the metadata *)

Section Coverage.
Import EnrichWithCoordinates Spec.

Lemma count_with_post centroid_lookup pgs enr :
  Forall2 (people_group_post centroid_lookup) pgs enr ->
  count_with "country_latitude" enr
  = length (List.filter (has_coordinates centroid_lookup) pgs).
Proof.
  unfold count_with. induction 1 as [|pg r pgs enr [_ Hr] _ IH]; [done|].
  simpl. unfold has_coordinates at 1. unfold get at 1.
  destruct (country_of centroid_lookup pg) as [centroid|].
  - destruct Hr as [-> _]. fold (get centroid "latitude").
    destruct (truthy (get centroid "latitude")); simpl; by rewrite IH.
  - rewrite (Hr "country_latitude"); [by simpl|].
    unfold new_fields_people_groups. set_solver.
Qed.

Lemma filter_length_le {A} (p q : A -> bool) l :
  (forall x, p x = true -> q x = true) ->
  (length (List.filter p l) <= length (List.filter q l))%nat.
Proof.
  intros Hpq. induction l as [|x l IH]; simpl; [lia|].
  destruct (p x) eqn:Hp.
  - rewrite (Hpq x Hp). simpl. lia.
  - destruct (q x); simpl; lia.
Qed.

Lemma filter_length_lt {A} (p q : A -> bool) l x :
  (forall x, p x = true -> q x = true) ->
  In x l -> p x = false -> q x = true ->
  (length (List.filter p l) < length (List.filter q l))%nat.
Proof.
  intros Hpq. induction l as [|y l IH]; simpl; [done|].
  intros [->|Hin] Hp Hq.
  - rewrite Hp, Hq. simpl. pose proof (filter_length_le p q l Hpq). lia.
  - specialize (IH Hin Hp Hq). destruct (p y) eqn:Hpy.
    + rewrite (Hpq y Hpy). simpl. lia.
    + destruct (q y); simpl; lia.
Qed.

Lemma has_coordinates_found centroid_lookup pg :
  has_coordinates centroid_lookup pg = true -> found (country_of centroid_lookup pg) = true.
Proof. unfold has_coordinates. by destruct (country_of centroid_lookup pg). Qed.

Lemma save_enriched_data_inv pgs langs md :
  save_enriched_data pgs langs = inr md ->
  cov_with_coordinates (md_people_groups md) = count_with "country_latitude" pgs
  /\ cov_total (md_people_groups md) = length pgs
  /\ percentage (count_with "country_latitude" pgs) (length pgs)
     = inr (cov_coverage (md_people_groups md)).
Proof.
  unfold save_enriched_data, cover.
  destruct (percentage (count_with "country_latitude" pgs) (length pgs)) as [e|pct];
    [done|]. cbn [bind ret].
  destruct (percentage (count_with "latitude" langs) (length langs)) as [e|pct'];
    [done|]. cbn [bind ret].
  intros [= <-]. by repeat split.
Qed.

(** C10, the coverage of the metadata.  For the collection a people-group pass
    returned, the metadata counts as having coordinates the records whose
    centroid latitude is truthy, while the pass counted as matched the records
    that found a centroid; the first count never exceeds the second, and is
    smaller as soon as one matched record has a falsy latitude, as null, 0 and
    0.0 are.  There is a run whose match rate reads 100.0% and whose coverage
    reads 0.0%. *)
Theorem coverage_counts_truthy_latitude :
  (forall (people_groups : list record) (centroid_lookup : dict record)
          (enr languages_enriched : list record) (rep : report) (md : metadata),
      enrich_people_groups people_groups centroid_lookup = inr (enr, rep) ->
      save_enriched_data enr languages_enriched = inr md ->
      cov_with_coordinates (md_people_groups md)
      = length (List.filter (has_coordinates centroid_lookup) people_groups)
      /\ rep_matched rep
         = length (List.filter (fun pg => found (country_of centroid_lookup pg))
                     people_groups)
      /\ (cov_with_coordinates (md_people_groups md) <= rep_matched rep)%nat
      /\ (forall pg centroid,
            In pg people_groups -> country_of centroid_lookup pg = Some centroid ->
            truthy (get centroid "latitude") = false ->
            (cov_with_coordinates (md_people_groups md) < rep_matched rep)%nat))
  /\ (truthy PyNone = false /\ truthy (PyInt 0) = false
      /\ forall s, truthy (PyFloat (S754_zero s)) = false)
  /\ (exists (people_groups : list record) (centroid_lookup : dict record)
             (enr : list record) (rep : report) (md : metadata),
        enrich_people_groups people_groups centroid_lookup = inr (enr, rep)
        /\ save_enriched_data enr [ {[ "latitude" := PyInt 1 ]} ] = inr md
        /\ rep_rate rep = "100.0%"
        /\ cov_coverage (md_people_groups md) = "0.0%").
Proof.
  split; [|split].
  - intros pgs idx enr langs rep md Hrun Hsave.
    apply enrich_people_groups_inv in Hrun as (Hpost & Hm & _).
    apply save_enriched_data_inv in Hsave as (Hc & _).
    rewrite Hc, (count_with_post idx pgs enr Hpost), Hm.
    split; [done|]. split; [done|]. split.
    + apply filter_length_le, has_coordinates_found.
    + intros pg centroid Hin Hhit Hfalsy.
      apply (filter_length_lt _ _ pgs pg); [apply has_coordinates_found|done| |].
      * unfold has_coordinates. by rewrite Hhit.
      * by rewrite Hhit.
  - by repeat split.
  - exists [ {[ "ROG3" := PyStr "USA" ]} ],
           (build_centroid_lookup
              [ {[ "iso_a3" := PyStr "USA"; "latitude" := PyFloat (S754_zero false);
                   "longitude" := PyFloat (S754_zero false) ]} ]).
    eexists _, _, _.
    split; [vm_compute; reflexivity|]. split; [vm_compute; reflexivity|].
    split; reflexivity.
Qed.

(** The statement at a country on the equator: its people group is matched
    and is not counted as having coordinates. *)
Lemma coverage_counts_truthy_latitude_witness :
  let centroid : record :=
    {[ "iso_a3" := PyStr "ECU"; "latitude" := PyInt 0; "longitude" := PyInt (-78) ]} in
  let pg : record := {[ "ROG3" := PyStr "ECU" ]} in
  forall enr rep md,
    enrich_people_groups [pg] (build_centroid_lookup [centroid]) = inr (enr, rep) ->
    save_enriched_data enr [pg] = inr md ->
    (cov_with_coordinates (md_people_groups md) < rep_matched rep)%nat.
Proof.
  intros centroid pg enr rep md Hrun Hsave.
  destruct (proj1 coverage_counts_truthy_latitude [pg] (build_centroid_lookup [centroid])
              enr [pg] rep md Hrun Hsave) as (_ & _ & _ & Hlt).
  apply (Hlt pg centroid); [by left|by vm_compute|by vm_compute].
Defined.

End Coverage.
